(** * generate: the SQL diagram generator (generate/main.go)

    A shallow embedding of [main.go]: the per-statement worker of
    [rootCmd.Run], the [stmt_block] overview worker, [runParse], [runRR],
    and the pieces of Go's [bytes], [strings], [unicode/utf8] and [regexp]
    packages that the workers call.

    Go's [[]byte] and [string] are both modelled as [string] (a sequence of
    8-bit characters).  The [extract] package, which main.go imports, is a
    parameter of the development. *)

From Stdlib Require Import String Ascii List Bool Arith NArith ZArith Lia Permutation.
Import ListNotations.
Open Scope string_scope.

(** ** Characters that cannot be typed inside a string literal *)

Definition DQ : string := String "034"%char EmptyString.   (* the double quote *)
Definition NL : string := String "010"%char EmptyString.   (* the line feed *)

(** ** unicode/utf8 *)

Module utf8.

Definition between (lo hi : N) (c : ascii) : bool :=
  ((lo <=? N_of_ascii c) && (N_of_ascii c <=? hi))%N.

(** The [first] table of utf8.go: for a lead byte of a multi-byte encoding,
    the size of the encoding and the range accepted for the second byte;
    [None] for ASCII and for bytes that cannot start an encoding. *)
Definition first (p0 : ascii) : option (nat * N * N) :=
  let x := N_of_ascii p0 in
  if (x <? 194)%N then None                       (* 00..7F as, 80..C1 xx *)
  else if (x <? 224)%N then Some (2, 128%N, 191%N)  (* C2..DF s1 *)
  else if (x =? 224)%N then Some (3, 160%N, 191%N)  (* E0 s2 *)
  else if (x <? 237)%N then Some (3, 128%N, 191%N)  (* E1..EC s3 *)
  else if (x =? 237)%N then Some (3, 128%N, 159%N)  (* ED s4 *)
  else if (x <? 240)%N then Some (3, 128%N, 191%N)  (* EE..EF s3 *)
  else if (x =? 240)%N then Some (4, 144%N, 191%N)  (* F0 s5 *)
  else if (x <? 244)%N then Some (4, 128%N, 191%N)  (* F1..F3 s6 *)
  else if (x =? 244)%N then Some (4, 128%N, 143%N)  (* F4 s7 *)
  else None.                                      (* F5..FF xx *)

(** The width returned by [utf8.DecodeRune(p)]: 0 for empty input, 1 for
    ASCII and for every invalid or truncated encoding. *)
Definition DecodeRuneSize (p : string) : nat :=
  match p with
  | EmptyString => 0
  | String p0 r =>
    match first p0 with
    | None => 1
    | Some (sz, lo, hi) =>
      if (String.length p <? sz)%nat then 1 else
      match r with
      | EmptyString => 1
      | String b1 r1 =>
        if negb (between lo hi b1) then 1
        else if (sz <=? 2)%nat then 2
        else match r1 with
             | EmptyString => 1
             | String b2 r2 =>
               if negb (between 128%N 191%N b2) then 1
               else if (sz <=? 3)%nat then 3
               else match r2 with
                    | EmptyString => 1
                    | String b3 _ =>
                      if negb (between 128%N 191%N b3) then 1 else 4
                    end
             end
      end
    end
  end.

End utf8.

(** ** strings / bytes *)

Module Go.

Fixpoint take (n : nat) (s : string) : string :=
  match n, s with
  | S n', String c s' => String c (take n' s')
  | _, _ => EmptyString
  end.

Fixpoint drop (n : nat) (s : string) : string :=
  match n, s with
  | S n', String _ s' => drop n' s'
  | _, _ => s
  end.

(** [strings.CutPrefix]: [s] without the leading [prefix], when it has it. *)
Fixpoint CutPrefix (s prefix : string) {struct prefix} : option string :=
  match prefix with
  | EmptyString => Some s
  | String a p' =>
    match s with
    | EmptyString => None
    | String b s' => if Ascii.eqb a b then CutPrefix s' p' else None
    end
  end.

Definition HasPrefix (s prefix : string) : bool :=
  match CutPrefix s prefix with Some _ => true | None => false end.

(** [strings.Cut]: the text before and after the first instance of [sep]
    (what [Index] finds). *)
Fixpoint Cut (s sep : string) : option (string * string) :=
  match CutPrefix s sep with
  | Some after => Some (EmptyString, after)
  | None =>
    match s with
    | EmptyString => None
    | String c s' =>
      match Cut s' sep with
      | Some (before, after) => Some (String c before, after)
      | None => None
      end
    end
  end.

Definition Contains (s substr : string) : bool :=
  match Cut s substr with Some _ => true | None => false end.

(** [strings.HasSuffix]. *)
Fixpoint HasSuffix (s suffix : string) : bool :=
  String.eqb s suffix ||
  match s with
  | EmptyString => false
  | String _ s' => HasSuffix s' suffix
  end.

(** [strings.TrimSuffix]. *)
Definition TrimSuffix (s suffix : string) : string :=
  if HasSuffix s suffix
  then take (String.length s - String.length suffix) s
  else s.

(** The replacement budget [n] of [Replace]: negative means no limit. *)
Inductive budget := NoLimit | AtMost (k : nat).

Definition budget_of (n : Z) : budget :=
  if (n <? 0)%Z then NoLimit else AtMost (Z.to_nat n).

Definition spent (n : budget) : bool :=
  match n with AtMost 0 => true | _ => false end.

Definition less (n : budget) : budget :=
  match n with NoLimit => NoLimit | AtMost k => AtMost (Nat.pred k) end.

(** The loop of [Replace] for a non-empty [old]: copy up to the next
    instance, copy [new], continue after the instance. *)
Fixpoint replaceLoop (fuel : nat) (s old new : string) (n : budget) : string :=
  match fuel with
  | 0 => s
  | S fuel' =>
    if spent n then s else
    match Cut s old with
    | Some (before, after) =>
      before ++ new ++ replaceLoop fuel' after old new (less n)
    | None => s
    end
  end.

(** The loop of [Replace] for an empty [old], after the first insertion:
    copy one rune, copy [new]. *)
Fixpoint runeLoop (fuel : nat) (s new : string) (n : budget) : string :=
  match fuel with
  | 0 => s
  | S fuel' =>
    if spent n then s else
    match s with
    | EmptyString => EmptyString
    | String _ _ =>
      let wid := utf8.DecodeRuneSize s in
      take wid s ++ new ++ runeLoop fuel' (drop wid s) new (less n)
    end
  end.

(** [strings.Replace(s, old, new, n)] and [bytes.Replace(s, old, new, n)]. *)
Definition Replace (s old new : string) (n : Z) : string :=
  let b := budget_of n in
  match old with
  | EmptyString =>
    if spent b then s else new ++ runeLoop (String.length s) s new (less b)
  | String _ _ => replaceLoop (String.length s) s old new b
  end.

(** [strings.SplitN(s, sep, 2)[0]] for a non-empty [sep]. *)
Definition SplitN2_0 (s sep : string) : string :=
  match Cut s sep with
  | Some (before, _) => before
  | None => s
  end.

(** [strings.Join]. *)
Fixpoint Join (elems : list string) (sep : string) : string :=
  match elems with
  | [] => EmptyString
  | [e] => e
  | e :: rest => e ++ sep ++ Join rest sep
  end.

End Go.

(** ** The collaborators of main.go *)

(** A Go [error] is modelled by its message. *)
Definition error := string.

(** A compiled [*regexp.Regexp] is modelled by the pattern it was compiled
    from. *)
Definition Regexp := string.

(** The [extract] package ([github.com/cockroachdb/docs/generate/extract]),
    with the signatures main.go uses.  A Go result [(v, err)] is a pair
    whose second component is [None] for a nil error.  [Inline] mutates its
    receiver: here it returns the mutated grammar. *)
Record Extract := {
  Grammar : Type;
  GenerateBNF : string -> string * option error;
  ParseGrammar : string -> Grammar * option error;
  Inline : Grammar -> list string -> Grammar * option error;
  ExtractProduction :
    Grammar -> string -> bool -> bool -> list Regexp -> list Regexp ->
    string * option error;
  GenerateRR : string -> string * option error;
  XHTMLtoHTML : string -> string * option error;
  ExtractTag : string -> string -> string * option error;
  InnerTag : string -> string -> string * option error
}.

(** What the workers use of the Go runtime besides [strings] and [bytes]:
    the [regexp] engine, [filepath.Join] and the answer of the file system
    to [ioutil.WriteFile]. *)
Record Runtime := {
  regexp_Compile : string -> bool;    (* does [regexp.Compile] accept it *)
  regexp_ReplaceAll : Regexp -> string -> string -> string;
  filepath_Join : string -> string -> string;
  ioutil_WriteFile : string -> string -> option error
}.

(** ** What a goroutine does to the outside world *)

Inductive event :=
| Log (line : string)               (* log.Printf *)
| Stdout (text : string)            (* fmt.Printf *)
| FileWrite (path data : string)    (* ioutil.WriteFile returned nil *)
| Exit1 (msg : string)              (* log.Fatal: the message, then os.Exit(1) *)
| Panic (msg : string).             (* an unrecovered panic: the process dies *)

Definition fatal (e : event) : bool :=
  match e with Exit1 _ | Panic _ => true | _ => false end.

(** A goroutine's computation: the events it has emitted, and its value
    unless it ended the process. *)
Definition Proc (A : Type) : Type := list event * option A.

Definition ret {A} (a : A) : Proc A := ([], Some a).

Definition bind {A B} (m : Proc A) (k : A -> Proc B) : Proc B :=
  match m with
  | (tr, Some a) => let (tr', r) := k a in ((tr ++ tr')%list, r)
  | (tr, None) => (tr, None)
  end.

Definition emit (e : event) : Proc unit := ([e], Some tt).
Definition log_Printf (line : string) : Proc unit := emit (Log line).
Definition fmt_Printf (text : string) : Proc unit := emit (Stdout text).
Definition log_Fatal {A} (msg : string) : Proc A := ([Exit1 msg], None).
Definition panic {A} (msg : string) : Proc A := ([Panic msg], None).

Declare Scope proc_scope.
Delimit Scope proc_scope with proc.
Notation "x <- m ;; k" := (bind m (fun x => k))
  (at level 61, m at next level, right associativity) : proc_scope.
Notation "' p <- m ;; k" := (bind m (fun p => k))
  (at level 61, p pattern, m at next level, right associativity) : proc_scope.
Notation "m ;;; k" := (bind m (fun _ => k))
  (at level 61, right associativity) : proc_scope.
Open Scope proc_scope.

(** ** The statement specification *)

Record stmtSpec := {
  name : string;
  stmt : string;                       (* if unspecified, uses name *)
  inline : list string;
  replace : list (string * string);    (* map[string]string, as written *)
  regreplace : list (string * string); (* map[string]string, as written *)
  match_ : list Regexp;
  exclude : list Regexp;
  unlink : list string;
  nosplit : bool
}.

Definition set_stmt (s : stmtSpec) (v : string) : stmtSpec :=
  {| name := name s; stmt := v; inline := inline s; replace := replace s;
     regreplace := regreplace s; match_ := match_ s; exclude := exclude s;
     unlink := unlink s; nosplit := nosplit s |}.

(** ** The link-removing regular expression (main.go:359-361)

    For a name [u] made of letters, digits and underscores, the pattern
    [Link.pattern u] is a literal, one unescaped dot (any rune but the line
    feed), a literal, the lazy group [((?s).*?)] and the literal [</a>].
    Go's leftmost-first matching of that shape, and
    [ReplaceAllString(body, "$1")] over its successive non-overlapping
    matches, are written out here; every literal starts with an ASCII
    byte, so rune boundaries never hide an instance. *)

Module Link.

Definition pattern (u : string) : string :=
  "<a xlink:href=" ++ DQ ++ "sql-grammar.html#" ++ u ++ DQ ++
  " xlink:title=" ++ DQ ++ u ++ DQ ++ ">((?s).*?)</a>".

Definition isWord (c : ascii) : bool :=
  let n := nat_of_ascii c in
  ((48 <=? n) && (n <=? 57) || (65 <=? n) && (n <=? 90) ||
   (97 <=? n) && (n <=? 122) || (n =? 95))%nat.

Fixpoint plain (u : string) : bool :=
  match u with
  | EmptyString => true
  | String c u' => isWord c && plain u'
  end.

Definition lit1 : string := "<a xlink:href=" ++ DQ ++ "sql-grammar".

Definition lit2 (u : string) : string :=
  "html#" ++ u ++ DQ ++ " xlink:title=" ++ DQ ++ u ++ DQ ++ ">".

Definition close : string := "</a>".

(** The unescaped dot: one rune that is not the line feed. *)
Definition dot (s : string) : option string :=
  match s with
  | EmptyString => None
  | String c _ =>
    if Ascii.eqb c "010" then None
    else Some (Go.drop (utf8.DecodeRuneSize s) s)
  end.

(** The opening tag at the head of [s]; what follows it. *)
Definition open (u s : string) : option string :=
  match Go.CutPrefix s lit1 with
  | Some r1 =>
    match dot r1 with
    | Some r2 => Go.CutPrefix r2 (lit2 u)
    | None => None
    end
  | None => None
  end.

(** A match at the head of [s]: the captured group and what follows the
    match.  The lazy group stops at the first [</a>]. *)
Definition matchAt (u s : string) : option (string * string) :=
  match open u s with
  | Some r => Go.Cut r close
  | None => None
  end.

Fixpoint replaceLoop (fuel : nat) (u body : string) : string :=
  match fuel with
  | 0 => body
  | S fuel' =>
    match matchAt u body with
    | Some (inner, rest) => inner ++ replaceLoop fuel' u rest
    | None =>
      match body with
      | EmptyString => EmptyString
      | String c body' => String c (replaceLoop fuel' u body')
      end
    end
  end.

(** [regexp.MustCompile(pattern u).ReplaceAllString(body, "$1")]. *)
Definition ReplaceAllString1 (u body : string) : string :=
  replaceLoop (String.length body) u body.

(** Does [body] hold a match of the pattern anywhere. *)
Fixpoint MatchString (u body : string) : bool :=
  match matchAt u body with
  | Some _ => true
  | None =>
    match body with
    | EmptyString => false
    | String _ body' => MatchString u body'
    end
  end.

End Link.

(** ** main.go *)

Section Generate.

Variable X : Extract.
Variable R : Runtime.

(** [%s] of a [[]string] and [%v] of a [bool]. *)
Definition fmtStrings (l : list string) : string := "[" ++ Go.Join l " " ++ "]".
Definition fmtBool (b : bool) : string := if b then "true" else "false".

Definition regexp_MustCompile (str : string) : Proc Regexp :=
  if regexp_Compile R str then ret str else panic str.

Definition ioutil_WriteFile_proc (path data : string) : Proc (option error) :=
  match ioutil_WriteFile R path data with
  | None => emit (FileWrite path data) ;;; ret None
  | Some e => ret (Some e)
  end.

Definition runBNF (addr : string) : Proc (string * option error) :=
  log_Printf ("generate BNF: " ++ addr) ;;;
  ret (GenerateBNF X addr).

Definition runParse (r : string) (inline : list string) (topStmt : string)
    (descend nosplit : bool) (match_ exclude : list Regexp)
  : Proc (string * option error) :=
  log_Printf ("parse: " ++ topStmt ++ ", inline: " ++ fmtStrings inline ++
              ", descend: " ++ fmtBool descend) ;;;
  let (g, err) := ParseGrammar X r in
  match err with
  | Some e => log_Fatal e
  | None =>
    let (g, err) := Inline X g inline in
    match err with
    | Some e => log_Fatal e
    | None =>
      let (b, err) := ExtractProduction X g topStmt descend nosplit match_ exclude in
      let b := Go.Replace b "IDENT" "identifier" (-1) in
      let b := Go.Replace b "_LA" EmptyString (-1) in
      ret (b, err)
    end
  end.

Definition runRR (name : string) (r : string) : Proc (string * option error) :=
  let b := r in                           (* ioutil.ReadAll of a bytes.Reader *)
  let (html, err) := GenerateRR X b in
  match err with
  | Some e => ret (EmptyString, Some e)
  | None =>
    log_Printf (name ++ ": generated railroad diagram") ;;;
    let (s, err) := XHTMLtoHTML X html in
    ret (s, err)
  end.

(** *** rootCmd.Run *)

Variable baseDir : string.
Variable filter : string.
Variable printBNF : bool.

Definition generatedBy : string :=
  "<p>generated by <a href=" ++ DQ ++ "http://www.bottlecaps.de/rr/ui" ++ DQ ++
  ">Railroad Diagram Generator</a></p>".

(** The first goroutine (main.go:148-176): the overview diagram. *)
Definition stmtBlockWorker (bnf : string) : Proc unit :=
  let name := "stmt_block" in
  if negb (filter =? EmptyString) && negb (filter =? name) then ret tt else
  '(g, err) <- runParse bnf [] name true true [] [] ;;
  match err with
  | Some e => log_Fatal e
  | None =>
    if printBNF then fmt_Printf (name ++ ":" ++ NL ++ NL ++ g ++ NL) else
    '(rr, err) <- runRR "stmt_block" g ;;
    match err with
    | Some e => log_Fatal e
    | None =>
      let (body, err) := InnerTag X rr "body" in
      let body := Go.SplitN2_0 body "<hr/>" in
      let body := body ++ generatedBy in
      let body := "<div>" ++ body ++ "</div>" in
      match err with
      | Some e => log_Fatal e
      | None =>
        err <- ioutil_WriteFile_proc (filepath_Join R baseDir "grammar.html") body ;;
        match err with
        | Some e => log_Fatal e
        | None => ret tt
        end
      end
    end
  end.

(** The loops over [s.replace] and [s.regreplace] (main.go:337-343), for a
    given order of iteration. *)
Definition replaceAllLiteral (order : list (string * string)) (g : string) : string :=
  fold_left (fun g ft => Go.Replace g (fst ft) (snd ft) (-1)) order g.

Fixpoint replaceAllRegexp (order : list (string * string)) (g : string) : Proc string :=
  match order with
  | [] => ret g
  | (from, to) :: rest =>
    re <- regexp_MustCompile from ;;
    replaceAllRegexp rest (regexp_ReplaceAll R re g to)
  end.

(** One turn of the loop over [s.unlink] (main.go:358-362). *)
Definition unlinkOne (u body : string) : Proc string :=
  let s := Link.pattern u in
  if Link.plain u then ret (Link.ReplaceAllString1 u body) else
  link <- regexp_MustCompile s ;;
  ret (regexp_ReplaceAll R link body "$1").

Fixpoint unlinkAll (us : list string) (body : string) : Proc string :=
  match us with
  | [] => ret body
  | u :: rest => body <- unlinkOne u body ;; unlinkAll rest body
  end.

(** The goroutine of one statement (main.go:322-366).  Go leaves the order
    of a [range] over a map unspecified: [lits] and [regs] are the orders
    in which this run visits [s.replace] and [s.regreplace]. *)
Definition specWorker (bnf : string) (s : stmtSpec)
    (lits regs : list (string * string)) : Proc unit :=
  if negb (filter =? EmptyString) && negb (filter =? name s) then ret tt else
  let s := if stmt s =? EmptyString then set_stmt s (name s) else s in
  '(g, err) <- runParse bnf (inline s) (stmt s) false (nosplit s) (match_ s) (exclude s) ;;
  match err with
  | Some e => log_Fatal (name s ++ ": " ++ e ++ NL ++ g)
  | None =>
    (if printBNF
     then fmt_Printf (name s ++ ": (PRE REPLACE)" ++ NL ++ NL ++ g ++ NL)
     else ret tt) ;;;
    let g := replaceAllLiteral lits g in
    g <- replaceAllRegexp regs g ;;
    if printBNF
    then fmt_Printf (name s ++ ": (POST REPLACE)" ++ NL ++ NL ++ g ++ NL)
    else
      '(rr, err) <- runRR (name s) g ;;
      match err with
      | Some e => log_Fatal (name s ++ ": " ++ e ++ NL ++ g)
      | None =>
        let (body, err) := ExtractTag X rr "svg" in
        match err with
        | Some e => log_Fatal (name s ++ e)
        | None =>
          let body := Go.Replace body ("<a xlink:href=" ++ DQ ++ "#")
                        ("<a xlink:href=" ++ DQ ++ "sql-grammar.html#") (-1) in
          let name' := Go.Replace (name s) "_stmt" EmptyString 1 in
          body <- unlinkAll (unlink s) body ;;
          err <- ioutil_WriteFile_proc
                   (filepath_Join R baseDir (name' ++ ".html")) body ;;
          match err with
          | Some e => log_Fatal (name s ++ e)
          | None => ret tt
          end
        end
      end
  end.

(** A run of the goroutine: some order of each map. *)
Definition specRun (bnf : string) (s : stmtSpec) (p : Proc unit) : Prop :=
  exists lits regs,
    Permutation (replace s) lits /\ Permutation (regreplace s) regs /\
    p = specWorker bnf s lits regs.

End Generate.

Arguments runParse X r inline topStmt descend nosplit match_ exclude : rename.

(** ** The process

    [rootCmd.Run] fetches the grammar, starts one goroutine for the
    overview and one per statement, and waits for all of them.  A goroutine
    is the list of events it has yet to emit; the process interleaves them
    until every goroutine is done or one of them ends the process
    ([os.Exit] in [log.Fatal], or a panic). *)

Inductive exec : list (list event) -> list event -> Prop :=
| exec_done ws :
    Forall (fun w => w = []) ws -> exec ws []
| exec_step ws1 e w ws2 tr :
    fatal e = false ->
    exec (ws1 ++ w :: ws2) tr ->
    exec (ws1 ++ (e :: w) :: ws2) (e :: tr)
| exec_fatal ws1 e w ws2 :
    fatal e = true ->
    exec (ws1 ++ (e :: w) :: ws2) [e].

Section Run.

Variable X : Extract.
Variable R : Runtime.
Variables (addr baseDir filter : string) (printBNF : bool).

(** The goroutines [Run] starts over the grammar [bnf]. *)
Definition goroutines (bnf : string) (specs : list stmtSpec)
    (ws : list (list event)) : Prop :=
  exists ps,
    Forall2 (specRun X R baseDir filter printBNF bnf) specs ps /\
    ws = fst (stmtBlockWorker X R baseDir filter printBNF bnf) :: map fst ps.

(** The events of one run of the command over the list [specs]. *)
Inductive Run (specs : list stmtSpec) : list event -> Prop :=
| Run_no_grammar t0 bnf e :
    runBNF X addr = (t0, Some (bnf, Some e)) ->
    Run specs (t0 ++ [Exit1 e])
| Run_workers t0 bnf ws tr :
    runBNF X addr = (t0, Some (bnf, None)) ->
    goroutines bnf specs ws ->
    exec ws tr ->
    Run specs (t0 ++ tr).

End Run.

(** The statements of main.go:178-315. *)
Definition mk := Build_stmtSpec.

Definition specs : list stmtSpec := [
  mk "add_column" "alter_table_stmt"
     ["alter_table_cmds"; "alter_table_cmd"]
     [] [(" \( ','.*\)\*", EmptyString)]
     ["'ADD' .* column_def \( ','"] [] [] false;
  mk "alter_table_stmt" EmptyString
     ["alter_table_cmds"; "alter_table_cmd"; "column_def"; "opt_drop_behavior"; "alter_column_default"; "opt_column"; "opt_set_data"]
     [] []
     [] [] [] true;
  mk "begin_transaction" "transaction_stmt"
     ["opt_transaction"; "opt_transaction_mode_list"; "transaction_iso_level"; "transaction_user_priority"; "user_priority"]
     [] []
     ["'BEGIN'|'START'"] [] [] false;
  mk "column_def" EmptyString
     []
     [] []
     [] [] [] false;
  mk "col_qual_list" "col_qual_list"
     ["col_qualification"; "col_qualification_elem"]
     [("| 'REFERENCES' qualified_name opt_name_parens", EmptyString)] []
     [] [] [] false;
  mk "commit_transaction" "transaction_stmt"
     ["opt_transaction"]
     [] []
     ["'COMMIT'|'END'"] [] [] false;
  mk "create_database_stmt" EmptyString
     ["opt_encoding_clause"]
     [("'SCONST'", "encoding")] []
     [] [] ["name"; "encoding"] false;
  mk "create_index_stmt" EmptyString
     ["opt_storing"; "storing"; "opt_unique"; "opt_name"; "index_params"; "index_elem"; "opt_asc_desc"; "name_list"]
     [("'INDEX' ( name", "'INDEX' ( index_name"); ("'EXISTS' name", "'EXISTS' index_name"); ("qualified_name", "table_name"); ("',' name", "',' column_name"); ("( name (", "( column_name (")] []
     [] [] ["index_name"; "table_name"; "column_name"] true;
  mk "create_table_stmt" EmptyString
     ["opt_table_elem_list"; "table_elem_list"; "table_elem"]
     [] []
     [] [] [] false;
  mk "delete_stmt" EmptyString
     ["relation_expr_opt_alias"; "where_clause"; "returning_clause"; "target_list"; "target_elem"]
     [] []
     [] [] [] false;
  mk "drop_database" "drop_stmt"
     []
     [] []
     ["'DROP' 'DATABASE'"] [] [] false;
  mk "drop_index" "drop_stmt"
     ["opt_drop_behavior"; "table_name_with_index_list"; "table_name_with_index"]
     [("qualified_name", "table_name"); ("'@' name", "'@' index_name")] []
     ["'DROP' 'INDEX'"] [] ["table_name"; "index_name"] false;
  mk "drop_stmt" EmptyString
     ["table_name_list"; "any_name"; "qualified_name_list"; "qualified_name"]
     [] []
     [] [] [] false;
  mk "drop_table" "drop_stmt"
     []
     [] []
     ["'DROP' 'TABLE'"] [] [] false;
  mk "explain_stmt" EmptyString
     ["explainable_stmt"; "explain_option_list"]
     [] []
     [] [] [] false;
  mk "family_def" EmptyString
     ["opt_name"; "name_list"]
     [] []
     [] [] [] false;
  mk "grant_stmt" EmptyString
     ["privileges"; "privilege_list"; "privilege"; "privilege_target"; "grantee_list"; "table_pattern_list"; "name_list"]
     [("table_pattern", "table_name"); ("'DATABASE' ( name ( ',' name )* )", "'DATABASE' ( database_name ( ',' database_name )* )"); ("'TO' ( name ( ',' name )* )", "'TO' ( user_name ( ',' user_name )* )")] []
     [] [] ["table_name"; "database_name"; "user_name"] true;
  mk "index_def" EmptyString
     ["opt_storing"; "storing"; "index_params"; "opt_name"]
     [] []
     [] [] [] false;
  mk "insert_stmt" EmptyString
     ["insert_target"; "insert_rest"; "returning_clause"]
     [] []
     ["'INSERT'"] [] [] false;
  mk "iso_level" EmptyString
     []
     [] []
     [] [] [] false;
  mk "release_savepoint" "release_stmt"
     ["savepoint_name"]
     [] []
     [] [] [] false;
  mk "rename_column" "rename_stmt"
     []
     [] []
     ["'ALTER' 'TABLE' .* 'RENAME' opt_column"] [] [] false;
  mk "rename_database" "rename_stmt"
     []
     [] []
     ["'ALTER' 'DATABASE'"] [] [] false;
  mk "rename_index" "rename_stmt"
     []
     [] []
     ["'ALTER' 'INDEX'"] [] [] false;
  mk "rename_table" "rename_stmt"
     []
     [] []
     ["'ALTER' 'TABLE' .* 'RENAME' 'TO'"] [] [] false;
  mk "revoke_stmt" EmptyString
     ["privileges"; "privilege_list"; "privilege"; "privilege_target"; "grantee_list"]
     [] []
     [] [] [] false;
  mk "rollback_transaction" "transaction_stmt"
     ["opt_transaction"]
     [] []
     ["'ROLLBACK'"] [] [] false;
  mk "savepoint_stmt" EmptyString
     ["savepoint_name"]
     [] []
     [] [] [] false;
  mk "select_stmt" EmptyString
     ["select_no_parens"; "simple_select"; "opt_sort_clause"; "select_limit"]
     [] []
     [] [] [] true;
  mk "set_time_zone" "set_stmt"
     ["set_rest"; "set_rest_more"; "generic_set"]
     [] []
     ["'SET' 'TIME'"] [] [] false;
  mk "set_database" "set_stmt"
     ["set_rest"; "set_rest_more"; "generic_set"]
     [("var_name", "'DATABASE'"); ("var_list", "database_name")] []
     ["'SET' var_name .* var_list"] [] ["database_name"] false;
  mk "set_transaction" "set_stmt"
     ["set_rest"; "transaction_mode_list"; "transaction_iso_level"; "transaction_user_priority"]
     [(" | set_rest_more", EmptyString)] []
     ["'TRANSACTION'"] [] [] false;
  mk "show_columns" "show_stmt"
     []
     [("var_name", "table_name")] []
     ["'SHOW' 'COLUMNS'"] [] ["table_name"] false;
  mk "show_constraints" "show_stmt"
     []
     [("var_name", "table_name")] []
     ["'SHOW' 'CONSTRAINTS'"] [] ["table_name"] false;
  mk "show_create_table" "show_stmt"
     []
     [("var_name", "table_name")] []
     ["'SHOW' 'CREATE' 'TABLE'"] [] ["table_name"] false;
  mk "show_databases" "show_stmt"
     []
     [] []
     ["'SHOW' 'DATABASES'"] [] [] false;
  mk "show_grants" "show_stmt"
     ["on_privilege_target_clause"; "privilege_target"; "for_grantee_clause"; "grantee_list"; "table_pattern_list"; "name_list"]
     [("table_pattern", "table_name"); ("'DATABASE' name ( ',' name )*", "'DATABASE' database_name ( ',' database_name )*"); ("'FOR' name ( ',' name )*", "'FOR' user_name ( ',' user_name )*")] []
     ["'SHOW' 'GRANTS'"] [] ["table_name"; "database_name"; "user_name"] false;
  mk "show_index" "show_stmt"
     []
     [("var_name", "table_name")] []
     ["'SHOW' 'INDEX'"] [] ["table_name"] false;
  mk "show_keys" "show_stmt"
     []
     [] []
     ["'SHOW' 'KEYS'"] [] [] false;
  mk "show_tables" "show_stmt"
     []
     [] []
     ["'SHOW' 'TABLES'"] [] [] false;
  mk "show_timezone" "show_stmt"
     []
     [] []
     ["'SHOW' 'TIME' 'ZONE'"] [] [] false;
  mk "show_transaction" "show_stmt"
     []
     [] []
     ["'SHOW' 'TRANSACTION'"] [] [] false;
  mk "table_constraint" EmptyString
     ["constraint_elem"; "opt_storing"; "storing"]
     [] []
     [] [] [] false;
  mk "truncate_stmt" EmptyString
     ["opt_table"; "relation_expr_list"; "relation_expr"; "opt_drop_behavior"]
     [("'ONLY' '(' qualified_name ')'", EmptyString); ("'ONLY' qualified_name", EmptyString); ("qualified_name", "table_name"); ("'*'", EmptyString); ("'CASCADE'", EmptyString); ("'RESTRICT'", EmptyString)] []
     [] [] ["table_name"] false;
  mk "update_stmt" EmptyString
     ["relation_expr_opt_alias"; "set_clause_list"; "set_clause"; "single_set_clause"; "multiple_set_clause"; "ctext_row"; "ctext_expr_list"; "ctext_expr"; "from_clause"; "from_list"; "where_clause"; "returning_clause"]
     [] []
     [] [] [] false;
  mk "upsert_stmt" "insert_stmt"
     ["insert_target"; "insert_rest"; "returning_clause"]
     [] []
     ["'UPSERT'"] [] [] false
].


(** ** Predicates of the statements *)

(** The characters that, put right after the text left of a removed [_LA],
    can complete an [IDENT] or an [_LA]. *)
Definition joinable (c : ascii) : bool :=
  match Go.Cut "ADELNT" (String c EmptyString) with
  | Some _ => true
  | None => false
  end.

(** [s] does not start with a [joinable] character. *)
Definition headFree (s : string) : bool :=
  match s with
  | EmptyString => true
  | String c _ => negb (joinable c)
  end.

(** Every [_LA] of [t] ends [t] or is followed by a character that is not
    [joinable] (a quote or a space, say). *)
Fixpoint markersClosed (t : string) : bool :=
  match Go.CutPrefix t "_LA" with
  | Some r => headFree r
  | None => true
  end &&
  match t with
  | EmptyString => true
  | String _ t' => markersClosed t'
  end.

(** The files a trace writes, in order. *)
Fixpoint writes (tr : list event) : list (string * string) :=
  match tr with
  | [] => []
  | FileWrite path data :: tr' => (path, data) :: writes tr'
  | _ :: tr' => writes tr'
  end.


(** The path of main.go:357 and 363. *)
Definition outPath (R : Runtime) (baseDir : string) (s : stmtSpec) : string :=
  filepath_Join R baseDir (Go.Replace (name s) "_stmt" EmptyString 1 ++ ".html").

(** The test of main.go:151 and 324. *)
Definition skipped (filter name : string) : bool :=
  negb (filter =? EmptyString) && negb (filter =? name).

(** The loop over [s.regreplace] when every pattern compiles. *)
Definition replaceAllRegexpPure (R : Runtime) (order : list (string * string))
    (g : string) : string :=
  fold_left (fun g ft => regexp_ReplaceAll R (fst ft) g (snd ft)) order g.


(** A trace up to the first event that ends the process. *)
Fixpoint untilFatal (tr : list event) : list event :=
  match tr with
  | [] => []
  | e :: tr' => if fatal e then [e] else e :: untilFatal tr'
  end.

(** ** Markup without nested links

    The markup the renderer returns, seen as pieces: text, and links
    [<a xlink:href=..sql-grammar.html#u.. xlink:title=..u..>inner</a>]. *)

Module Markup.

Inductive piece :=
| Text (t : string)
| Anchor (u inner : string).

(** The opening tag of a link to [u], as main.go:356 leaves it. *)
Definition tag (u : string) : string := Link.lit1 ++ "." ++ Link.lit2 u.

Fixpoint markup (d : list piece) : string :=
  match d with
  | [] => EmptyString
  | Text t :: d' => t ++ markup d'
  | Anchor u inner :: d' => tag u ++ inner ++ Link.close ++ markup d'
  end.

(** The pieces with every link to [u] replaced by what it encloses. *)
Definition strip (u : string) (d : list piece) : list piece :=
  map (fun p =>
         match p with
         | Text _ => p
         | Anchor v inner => if v =? u then Text inner else p
         end) d.

(** [s] and [lit] are the same as far as both go. *)
Fixpoint agree (s lit : string) : bool :=
  match s, lit with
  | String a s', String b lit' => Ascii.eqb b a && agree s' lit'
  | _, _ => true
  end.

(** Could a text that starts with [s] start with an opening tag for [u]:
    [s] is the same as such a tag as far as it goes, the dot of the pattern
    standing for one to four bytes. *)
Definition opens (u s : string) : bool :=
  match Go.CutPrefix s Link.lit1 with
  | None => agree s Link.lit1
  | Some EmptyString => true
  | Some (String c r as r1) =>
    negb (Ascii.eqb c "010") &&
    (agree r (Link.lit2 u) || agree (Go.drop 2 r1) (Link.lit2 u) ||
     agree (Go.drop 3 r1) (Link.lit2 u) || agree (Go.drop 4 r1) (Link.lit2 u))
  end.

(** No opening tag for [u] starts in [t], whatever follows [t]. *)
Fixpoint clean (u t : string) : bool :=
  match t with
  | EmptyString => true
  | String _ t' => negb (opens u t) && clean u t'
  end.

(** No [</a>] starts in [t], whatever follows [t]. *)
Fixpoint unclosed (t : string) : bool :=
  match t with
  | EmptyString => true
  | String _ t' => negb (agree t Link.close) && unclosed t'
  end.

(** Is there a link to [u] among the pieces. *)
Definition links (u : string) (d : list piece) : bool :=
  existsb (fun p => match p with Text _ => false | Anchor v _ => v =? u end) d.

(** [t] holds no [<]. *)
Fixpoint noLt (t : string) : bool :=
  match t with
  | EmptyString => true
  | String c t' => negb (Ascii.eqb "<" c) && noLt t'
  end.

(** A text in which no link to a name of [us] can start; a link to a name
    of letters, digits and underscores whose content is such a text and
    holds no start of a closing tag. *)
Definition pieceOk (us : list string) (p : piece) : bool :=
  match p with
  | Text t => forallb (fun u => clean u t) us
  | Anchor v inner =>
    Link.plain v && forallb (fun u => clean u inner) us && unclosed inner
  end.

(** Links are not nested, and no piece can begin a link to a name of
    [us]. *)
Definition flat (us : list string) (d : list piece) : bool :=
  forallb (pieceOk us) d.

End Markup.

(** ** A sample environment

    A stand-in for the collaborators, to run the workers on concrete
    inputs: a grammar is its text, one production [name ::= body] per
    line; extraction returns the body of the production asked for, or
    an error with the head of the production it did not find; the
    renderer wraps its input in an [svg] element; every regular expression
    compiles and the engine leaves its input as it is. *)

Module Sample.

Definition grammar : string :=
  "stmt_block ::= stmt" ++ NL ++
  "stmt ::= drop_stmt | show_stmt" ++ NL ++
  "drop_stmt ::= 'DROP' 'TABLE' IDENT" ++ NL ++
  "show_stmt ::= 'SHOW' 'TABLES' | 'SHOW' 'NOT_LA' IDENT" ++ NL.

Definition production (g top : string) : string * option error :=
  match Go.Cut (NL ++ g) (NL ++ top ++ " ::= ") with
  | Some (_, after) => (Go.SplitN2_0 after NL, None)
  | None => (top ++ " ::=", Some ("couldn't find " ++ top))
  end.

Definition extract : Extract := {|
  Grammar := string;
  GenerateBNF := fun _ => (grammar, None);
  ParseGrammar := fun r => (r, None);
  Inline := fun g _ => (g, None);
  ExtractProduction := fun g top _ _ _ _ => production g top;
  GenerateRR := fun b => ("<svg>" ++ b ++ "</svg>", None);
  XHTMLtoHTML := fun html => (html, None);
  ExtractTag := fun r _ => (r, None);
  InnerTag := fun r _ => (r, None)
|}.

Definition runtime : Runtime := {|
  regexp_Compile := fun _ => true;
  regexp_ReplaceAll := fun _ src _ => src;
  filepath_Join := fun dir file => dir ++ "/" ++ file;
  ioutil_WriteFile := fun _ _ => None
|}.

Definition spec (name stmt : string) : stmtSpec :=
  mk name stmt [] [] [] [] [] [] false.

(** The statements of main.go named [name]. *)
Definition builtin (name' : string) : list stmtSpec :=
  List.filter (fun s => name s =? name') specs.

Definition the (name' : string) : stmtSpec :=
  hd (spec name' EmptyString) (builtin name').

(** Two grammars for the statements [truncate_stmt] and
    [create_index_stmt] of main.go, and an order of iteration of the
    [replace] map of each that is not the order of the source: the
    entries of the source, starting from one that is not the first. *)
Definition truncateGrammar : string :=
  "truncate_stmt ::= 'TRUNCATE' 'TABLE' 'ONLY' qualified_name" ++ NL.

Definition truncateOrder : list (string * string) :=
  [("qualified_name", "table_name");
   ("'*'", EmptyString); ("'CASCADE'", EmptyString); ("'RESTRICT'", EmptyString);
   ("'ONLY' '(' qualified_name ')'", EmptyString);
   ("'ONLY' qualified_name", EmptyString)].



(** The collaborators with a renderer that answers [html] to anything. *)
Definition rendering (html : string) : Extract := {|
  Grammar := string;
  GenerateBNF := fun _ => (grammar, None);
  ParseGrammar := fun r => (r, None);
  Inline := fun g _ => (g, None);
  ExtractProduction := fun g top _ _ _ _ => production g top;
  GenerateRR := fun _ => (html, None);
  XHTMLtoHTML := fun html => (html, None);
  ExtractTag := fun r _ => (r, None);
  InnerTag := fun r _ => (r, None)
|}.

Definition databaseGrammar : string :=
  "create_database_stmt ::= 'CREATE' 'DATABASE' name opt_with 'SCONST'" ++ NL.

(** A link as the renderer writes it. *)
Definition link (u inner : string) : string :=
  "<a xlink:href=" ++ DQ ++ "#" ++ u ++ DQ ++ " xlink:title=" ++ DQ ++ u ++ DQ ++
  ">" ++ inner ++ "</a>".

(** A rendering of [create_database_stmt] with three links, and one in
    which a link to [name] encloses another. *)
Definition databaseSvg : string :=
  "<svg><text>CREATE</text><text>DATABASE</text>" ++
  link "name" "<rect/><text>name</text>" ++
  link "opt_with" "<rect/><text>opt_with</text>" ++
  link "encoding" "<rect/><text>encoding</text>" ++ "</svg>".

Definition databasePieces : list Markup.piece :=
  [Markup.Text "<svg><text>CREATE</text><text>DATABASE</text>";
   Markup.Anchor "name" "<rect/><text>name</text>";
   Markup.Anchor "opt_with" "<rect/><text>opt_with</text>";
   Markup.Anchor "encoding" "<rect/><text>encoding</text>";
   Markup.Text "</svg>"].

Definition nestedSvg : string :=
  "<svg>" ++ link "name" ("<g>" ++ link "name" "<text>name</text>" ++ "</g>") ++
  "</svg>".




End Sample.

(** ** The sub-commands (main.go:25-118)

    What the sub-commands use of the operating system: the bytes standard
    input delivers (reading it is taken to succeed), the answers of
    [os.Open] and of [ioutil.ReadAll] for the file at a path, of
    [os.Create] for a path, and of [Write] for standard output and for the
    file created at a path. *)
Record OS := {
  os_Stdin : string;
  os_Open : string -> option error;
  ioutil_ReadAll : string -> string * option error;
  os_Create : string -> option error;
  Stdout_Write : string -> option error;
  File_Write : string -> string -> option error
}.

Section Commands.

Variable X : Extract.
Variable O : OS.

(** The persistent flags [--in] and [--out]. *)
Variables inputPath outputPath : string.

(** The closure [read] (main.go:25-40): the bytes of the reader it
    returns. *)
Definition read : Proc string :=
  if inputPath =? EmptyString then ret (os_Stdin O) else
  match os_Open O inputPath with
  | Some e => log_Fatal e
  | None =>
    let (b, err) := ioutil_ReadAll O inputPath in
    match err with
    | Some e => log_Fatal e
    | None => ret b
    end
  end.

(** The closure [write] (main.go:42-55).  The event is emitted when
    [Write] returned a nil error. *)
Definition write (b : string) : Proc unit :=
  if outputPath =? EmptyString then
    match Stdout_Write O b with
    | Some e => log_Fatal e
    | None => emit (Stdout b)
    end
  else
    match os_Create O outputPath with
    | Some e => log_Fatal e
    | None =>
      match File_Write O outputPath b with
      | Some e => log_Fatal e
      | None => emit (FileWrite outputPath b)
      end
    end.

(** [bnf] (main.go:59-69). *)
Definition cmdBNF (addr : string) : Proc unit :=
  '(b, err) <- runBNF X addr ;;
  match err with
  | Some e => log_Fatal e
  | None => write b
  end.

(** [reduce] (main.go:79-90). *)
Definition cmdParse (inline : list string) (topStmt : string) (descend : bool)
  : Proc unit :=
  r <- read ;;
  '(b, err) <- runParse X r inline topStmt descend true [] [] ;;
  match err with
  | Some e => log_Fatal e
  | None => write b
  end.

(** [rr] (main.go:96-106). *)
Definition cmdRR : Proc unit :=
  r <- read ;;
  '(b, err) <- runRR X EmptyString r ;;
  match err with
  | Some e => log_Fatal e
  | None => write b
  end.

(** [body] (main.go:108-118). *)
Definition cmdBody : Proc unit :=
  r <- read ;;
  let (s, err) := InnerTag X r "body" in
  match err with
  | Some e => log_Fatal e
  | None => write s
  end.

End Commands.

(** What a trace puts on standard output and in files. *)
Definition outputs (tr : list event) : list event :=
  List.filter
    (fun e => match e with Stdout _ | FileWrite _ _ => true | _ => false end) tr.

(** Where [write] puts [b]. *)
Definition destination (outputPath b : string) : event :=
  if outputPath =? EmptyString then Stdout b else FileWrite outputPath b.

(** A command that either returns, having put one result at the
    destination, or ends the process with a message, having put out
    nothing. *)
Definition once (outputPath : string) (c : Proc unit) : Prop :=
  (snd c = Some tt /\ exists b, outputs (fst c) = [destination outputPath b]) \/
  (snd c = None /\ outputs (fst c) = [] /\
   exists t msg, fst c = (t ++ [Exit1 msg])%list).

(** A step that puts out nothing, and ends the process only with a
    message. *)
Definition quiet {A} (m : Proc A) : Prop :=
  outputs (fst m) = [] /\
  (snd m = None -> exists t msg, fst m = (t ++ [Exit1 msg])%list).

(** An operating system in which everything succeeds, and one that finds
    no file to open. *)
Module Host.

Definition fine (input : string) : OS := {|
  os_Stdin := input;
  os_Open := fun _ => None;
  ioutil_ReadAll := fun _ => (input, None);
  os_Create := fun _ => None;
  Stdout_Write := fun _ => None;
  File_Write := fun _ _ => None
|}.

Definition noFile (input : string) : OS := {|
  os_Stdin := input;
  os_Open := fun path => Some ("open " ++ path ++ ": no such file or directory");
  ioutil_ReadAll := fun _ => (EmptyString, None);
  os_Create := fun _ => None;
  Stdout_Write := fun _ => None;
  File_Write := fun _ _ => None
|}.

End Host.

(** ** The links of the rendering (main.go:356)

    The opening of a link to a local anchor, as the renderer writes it, and
    what the statement worker replaces it by. *)
Definition localHref : string := "<a xlink:href=" ++ DQ ++ "#".
Definition pageHref : string := "<a xlink:href=" ++ DQ ++ "sql-grammar.html#".

(** ** Collaborators that fail *)

Module Failing.

(** The grammar cannot be fetched. *)
Definition noGrammar : Extract := {|
  Grammar := string;
  GenerateBNF := fun _ => (EmptyString, Some "404 Not Found");
  ParseGrammar := fun r => (r, None);
  Inline := fun g _ => (g, None);
  ExtractProduction := fun g top _ _ _ _ => Sample.production g top;
  GenerateRR := fun b => ("<svg>" ++ b ++ "</svg>", None);
  XHTMLtoHTML := fun html => (html, None);
  ExtractTag := fun r _ => (r, None);
  InnerTag := fun r _ => (r, None)
|}.

(** The renderer cannot be reached. *)
Definition noRenderer : Extract := {|
  Grammar := string;
  GenerateBNF := fun _ => (Sample.grammar, None);
  ParseGrammar := fun r => (r, None);
  Inline := fun g _ => (g, None);
  ExtractProduction := fun g top _ _ _ _ => Sample.production g top;
  GenerateRR := fun _ => (EmptyString, Some "connection refused");
  XHTMLtoHTML := fun html => (html, None);
  ExtractTag := fun r _ => (r, None);
  InnerTag := fun r _ => (r, None)
|}.


(** The rendering has no [svg] element. *)
Definition noTag : Extract := {|
  Grammar := string;
  GenerateBNF := fun _ => (Sample.grammar, None);
  ParseGrammar := fun r => (r, None);
  Inline := fun g _ => (g, None);
  ExtractProduction := fun g top _ _ _ _ => Sample.production g top;
  GenerateRR := fun b => ("<p>" ++ b ++ "</p>", None);
  XHTMLtoHTML := fun html => (html, None);
  ExtractTag := fun _ tag => (EmptyString, Some (": no " ++ tag ++ " element"));
  InnerTag := fun _ tag => (EmptyString, Some (": no " ++ tag ++ " element"))
|}.

(** The file system refuses every write. *)
Definition readOnly : Runtime := {|
  regexp_Compile := fun _ => true;
  regexp_ReplaceAll := fun _ src _ => src;
  filepath_Join := fun dir file => dir ++ "/" ++ file;
  ioutil_WriteFile := fun path _ => Some (": open " ++ path ++ ": read-only file system")
|}.


End Failing.

(** ** The run in which the goroutines take turns *)

(** The events of the run of the command in which the goroutines run one
    after the other in the order they were started, each visiting its maps
    in the order of the source. *)
Definition turns (X : Extract) (R : Runtime) (addr baseDir filter : string)
    (printBNF : bool) (specs : list stmtSpec) : list event :=
  match GenerateBNF X addr with
  | (_, Some e) => [Log ("generate BNF: " ++ addr); Exit1 e]
  | (bnf, None) =>
    Log ("generate BNF: " ++ addr) ::
    untilFatal
      (concat
         (fst (stmtBlockWorker X R baseDir filter printBNF bnf) ::
          map (fun s => fst (specWorker X R baseDir filter printBNF bnf s
                               (replace s) (regreplace s))) specs))
  end.

(** * Properties *)

(** ** Elementary facts about [string] *)

Module Str.

Lemma app_nil_r (s : string) : s ++ EmptyString = s.
Proof. induction s as [|c s IH]; simpl; [reflexivity | now rewrite IH]. Qed.

Lemma app_assoc (a b c : string) : (a ++ b) ++ c = a ++ (b ++ c).
Proof. induction a as [|x a IH]; simpl; [reflexivity | now rewrite IH]. Qed.

Lemma length_app (a b : string) : String.length (a ++ b) = String.length a + String.length b.
Proof. induction a as [|x a IH]; simpl; [reflexivity | now rewrite IH]. Qed.

Lemma app_inv_head (a b c : string) : a ++ b = a ++ c -> b = c.
Proof. induction a as [|x a IH]; simpl; intros H; [exact H | injection H; auto]. Qed.

End Str.

(** ** Runes *)

Module Rune.

Lemma DecodeRuneSize_pos (c : ascii) (s : string) :
  1 <= utf8.DecodeRuneSize (String c s).
Proof.
  unfold utf8.DecodeRuneSize.
  destruct (utf8.first c) as [[[sz lo] hi]|]; [|lia].
  destruct (String.length (String c s) <? sz)%nat; [lia|].
  destruct s as [|b1 r1]; [lia|].
  destruct (negb (utf8.between lo hi b1)); [lia|].
  destruct (sz <=? 2)%nat; [lia|].
  destruct r1 as [|b2 r2]; [lia|].
  destruct (negb (utf8.between 128%N 191%N b2)); [lia|].
  destruct (sz <=? 3)%nat; [lia|].
  destruct r2 as [|b3 r3]; [lia|].
  destruct (negb (utf8.between 128%N 191%N b3)); lia.
Qed.

Lemma DecodeRuneSize_le (s : string) : utf8.DecodeRuneSize s <= String.length s.
Proof.
  destruct s as [|c s]; [simpl; lia|].
  unfold utf8.DecodeRuneSize.
  destruct (utf8.first c) as [[[sz lo] hi]|]; [|simpl; lia].
  destruct (String.length (String c s) <? sz)%nat eqn:E; [simpl; lia|].
  apply Nat.ltb_ge in E.
  destruct s as [|b1 r1]; [simpl; lia|].
  destruct (negb (utf8.between lo hi b1)); [simpl; lia|].
  destruct (sz <=? 2)%nat eqn:E2; [simpl; lia|].
  destruct r1 as [|b2 r2]; [simpl; lia|].
  destruct (negb (utf8.between 128%N 191%N b2)); [simpl; lia|].
  destruct (sz <=? 3)%nat eqn:E3; [simpl; lia|].
  destruct r2 as [|b3 r3]; [simpl; lia|].
  destruct (negb (utf8.between 128%N 191%N b3)); simpl; lia.
Qed.

End Rune.

(** ** [strings] on examples *)

Example Replace_all_ex : Go.Replace "a'IDENT'b IDENT" "IDENT" "identifier" (-1) = "a'identifier'b identifier".
Proof. reflexivity. Qed.
Example Replace_first_ex : Go.Replace "alter_table_stmt" "_stmt" EmptyString 1 = "alter_table".
Proof. reflexivity. Qed.
Example Replace_empty_old : Go.Replace "ab" EmptyString "-" (-1) = "-a-b-".
Proof. reflexivity. Qed.
Example Replace_empty_old2 : Go.Replace "abc" EmptyString "-" 2 = "-a-bc".
Proof. reflexivity. Qed.
Example TrimSuffix_ex : Go.TrimSuffix "drop_stmt" "_stmt" = "drop".
Proof. reflexivity. Qed.

(** ** The workers *)

Lemma bind_ret_l {A B} (a : A) (k : A -> Proc B) : bind (ret a) k = k a.
Proof. unfold bind, ret. destruct (k a) as [tr r]. reflexivity. Qed.

(** C6: with a non-empty filter, a worker whose name differs from the
    filter (the statement workers and the stmt_block overview worker alike)
    emits no event at all, so it neither parses, extracts, renders nor
    writes a file, and returns; a worker whose name is the filter behaves
    exactly as it does with no filter. *)
Theorem filter_restricts_workers
    X R baseDir filter printBNF bnf s lits regs :
  filter <> EmptyString ->
  (name s <> filter ->
   specWorker X R baseDir filter printBNF bnf s lits regs = ([], Some tt)) /\
  (name s = filter ->
   specWorker X R baseDir filter printBNF bnf s lits regs =
   specWorker X R baseDir EmptyString printBNF bnf s lits regs) /\
  (filter <> "stmt_block" ->
   stmtBlockWorker X R baseDir filter printBNF bnf = ([], Some tt)) /\
  (filter = "stmt_block" ->
   stmtBlockWorker X R baseDir filter printBNF bnf =
   stmtBlockWorker X R baseDir EmptyString printBNF bnf).
Proof.
  intros Hne.
  apply String.eqb_neq in Hne.
  unfold specWorker, stmtBlockWorker. rewrite Hne. cbn [negb andb].
  repeat split.
  - intros Hn. apply not_eq_sym, String.eqb_neq in Hn. now rewrite Hn.
  - intros Hn. subst filter. now rewrite String.eqb_refl.
  - intros Hn. apply String.eqb_neq in Hn. now rewrite Hn.
  - intros Hn. subst filter. reflexivity.
Qed.

Lemma filter_restricts_workers_witness :
  specWorker Sample.extract Sample.runtime "out" "show_tables" false
    Sample.grammar (Sample.spec "drop_table" "drop_stmt") [] [] = ([], Some tt) /\
  specWorker Sample.extract Sample.runtime "out" "show_tables" false
    Sample.grammar (Sample.spec "show_tables" "show_stmt") [] [] =
  specWorker Sample.extract Sample.runtime "out" EmptyString false
    Sample.grammar (Sample.spec "show_tables" "show_stmt") [] [] /\
  stmtBlockWorker Sample.extract Sample.runtime "out" "show_tables" false
    Sample.grammar = ([], Some tt).
Proof.
  pose proof (filter_restricts_workers Sample.extract Sample.runtime "out"
                "show_tables" false Sample.grammar
                (Sample.spec "drop_table" "drop_stmt") [] []) as H1.
  pose proof (filter_restricts_workers Sample.extract Sample.runtime "out"
                "show_tables" false Sample.grammar
                (Sample.spec "show_tables" "show_stmt") [] []) as H2.
  split; [|split].
  - apply H1; discriminate.
  - apply H2; [discriminate | reflexivity].
  - apply H1; discriminate.
Defined.

(** C7: the root production handed to runParse is the spec's stmt field,
    or its name when that field is empty; nothing else in the worker reads
    the field (the continuation [k] is the same for every value of it). *)
Theorem stmt_defaults_to_name
    X R baseDir filter printBNF bnf s lits regs :
  filter = EmptyString \/ filter = name s ->
  exists k, forall st,
    specWorker X R baseDir filter printBNF bnf (set_stmt s st) lits regs =
    bind (runParse X bnf (inline s)
            (if st =? EmptyString then name s else st)
            false (nosplit s) (match_ s) (exclude s)) k.
Proof.
  intros Hf.
  assert (Hpass : negb (filter =? EmptyString) && negb (filter =? name s) = false).
  { destruct Hf as [-> | ->].
    - reflexivity.
    - rewrite String.eqb_refl. now rewrite andb_false_r. }
  eexists. intros st.
  unfold specWorker.
  cbn [name set_stmt]. rewrite Hpass.
  cbn [stmt set_stmt].
  destruct (st =? EmptyString); cbn [name stmt inline nosplit match_ exclude unlink set_stmt];
    reflexivity.
Qed.

Lemma stmt_defaults_to_name_witness :
  exists k, forall st,
    specWorker Sample.extract Sample.runtime "out" EmptyString false
      Sample.grammar (set_stmt (Sample.spec "drop_stmt" EmptyString) st) [] [] =
    bind (runParse Sample.extract Sample.grammar []
            (if st =? EmptyString then "drop_stmt" else st)
            false false [] []) k.
Proof.
  apply (stmt_defaults_to_name Sample.extract Sample.runtime "out" EmptyString
           false Sample.grammar (Sample.spec "drop_stmt" EmptyString) [] []).
  left; reflexivity.
Defined.

Example worker_drop_stmt :
  specWorker Sample.extract Sample.runtime "out" EmptyString false
    Sample.grammar (Sample.spec "drop_stmt" EmptyString) [] [] =
  ([Log "parse: drop_stmt, inline: [], descend: false";
    Log "drop_stmt: generated railroad diagram";
    FileWrite "out/drop.html" "<svg>'DROP' 'TABLE' identifier</svg>"],
   Some tt).
Proof. reflexivity. Qed.

Example worker_show_tables :
  specWorker Sample.extract Sample.runtime "out" EmptyString false
    Sample.grammar (Sample.spec "show_tables" "show_stmt") [] [] =
  ([Log "parse: show_stmt, inline: [], descend: false";
    Log "show_tables: generated railroad diagram";
    FileWrite "out/show_tables.html"
      "<svg>'SHOW' 'TABLES' | 'SHOW' 'NOT' identifier</svg>"],
   Some tt).
Proof. reflexivity. Qed.



(** ** [strings.Cut] and [strings.Replace] *)

Module GoFacts.
Import Go.

Lemma CutPrefix_app (p r : string) : CutPrefix (p ++ r) p = Some r.
Proof.
  induction p as [|a p IH]; simpl; [reflexivity|].
  now rewrite Ascii.eqb_refl.
Qed.

Lemma CutPrefix_sound (s p r : string) : CutPrefix s p = Some r -> s = p ++ r.
Proof.
  revert s; induction p as [|a p IH]; intros s H; simpl in *.
  - now inversion H.
  - destruct s as [|b s]; [discriminate|].
    destruct (Ascii.eqb a b) eqn:E; [|discriminate].
    apply Ascii.eqb_eq in E; subst b. f_equal. now apply IH.
Qed.

Lemma CutPrefix_cons (c x : ascii) (s p : string) :
  CutPrefix (String c s) (String x p) =
  if Ascii.eqb x c then CutPrefix s p else None.
Proof. reflexivity. Qed.

Lemma HasPrefix_cons (c x : ascii) (s p : string) :
  HasPrefix (String c s) (String x p) = Ascii.eqb x c && HasPrefix s p.
Proof. unfold HasPrefix; simpl. now destruct (Ascii.eqb x c). Qed.

Lemma HasPrefix_nil (x : ascii) (p : string) :
  HasPrefix EmptyString (String x p) = false.
Proof. reflexivity. Qed.

Lemma Cut_unfold (s sep : string) :
  Cut s sep =
  match CutPrefix s sep with
  | Some after => Some (EmptyString, after)
  | None =>
    match s with
    | EmptyString => None
    | String c s' =>
      match Cut s' sep with
      | Some (before, after) => Some (String c before, after)
      | None => None
      end
    end
  end.
Proof. destruct s; reflexivity. Qed.

Lemma Cut_sound (s sep b a : string) :
  Cut s sep = Some (b, a) -> s = b ++ sep ++ a.
Proof.
  revert b a; induction s as [|c s IH]; intros b a H; rewrite Cut_unfold in H.
  - destruct (CutPrefix EmptyString sep) eqn:E; [|discriminate].
    inversion H; subst. now apply CutPrefix_sound in E.
  - destruct (CutPrefix (String c s) sep) eqn:E.
    + inversion H; subst. now apply CutPrefix_sound in E.
    + destruct (Cut s sep) as [[b' a']|] eqn:E'; [|discriminate].
      inversion H; subst. simpl. f_equal. now apply IH.
Qed.


Lemma Cut_shorter (s sep b a : string) (x : ascii) (sep' : string) :
  sep = String x sep' -> Cut s sep = Some (b, a) ->
  String.length a < String.length s.
Proof.
  intros -> H. apply Cut_sound in H. subst s.
  rewrite !Str.length_app. simpl. lia.
Qed.

Lemma Contains_unfold (s w : string) :
  Contains s w =
  HasPrefix s w ||
  match s with EmptyString => false | String _ s' => Contains s' w end.
Proof.
  unfold Contains, HasPrefix. rewrite Cut_unfold.
  destruct (CutPrefix s w); [reflexivity|].
  destruct s as [|c s]; [reflexivity|]. simpl.
  now destruct (Cut s w) as [[? ?]|].
Qed.

Lemma Contains_cons_false (c : ascii) (s w : string) :
  Contains (String c s) w = false ->
  HasPrefix (String c s) w = false /\ Contains s w = false.
Proof. rewrite Contains_unfold. apply orb_false_elim. Qed.

(** Fuel beyond the length of the text changes nothing. *)
Lemma replaceLoop_fuel (x : ascii) (old' new : string) (n : budget) :
  forall f1 f2 s,
    String.length s <= f1 -> String.length s <= f2 ->
    replaceLoop f1 s (String x old') new n = replaceLoop f2 s (String x old') new n.
Proof.
  intros f1; revert n; induction f1 as [|f1 IH]; intros n f2 s H1 H2.
  - destruct s; [|simpl in H1; lia]. destruct f2; simpl; [reflexivity|].
    now destruct (spent n).
  - destruct f2 as [|f2].
    + destruct s; [|simpl in H2; lia]. simpl. now destruct (spent n).
    + simpl. destruct (spent n); [reflexivity|].
      destruct (Cut s (String x old')) as [[b a]|] eqn:E; [|reflexivity].
      pose proof (Cut_shorter _ _ _ _ _ _ eq_refl E).
      do 2 f_equal. apply IH; lia.
Qed.

(** [Replace] with no limit, one character at a time. *)
Lemma ReplaceAll_nil (x : ascii) (old' new : string) :
  Replace EmptyString (String x old') new (-1) = EmptyString.
Proof. reflexivity. Qed.

Lemma ReplaceAll_hit (s r : string) (x : ascii) (old' new : string) :
  CutPrefix s (String x old') = Some r ->
  Replace s (String x old') new (-1) = new ++ Replace r (String x old') new (-1).
Proof.
  intros H. unfold Replace. cbn [budget_of Z.ltb Z.compare].
  pose proof (CutPrefix_sound _ _ _ H) as Hs.
  destruct (String.length s) as [|f] eqn:El.
  { subst s. simpl in El. lia. }
  cbn [replaceLoop spent]. rewrite Cut_unfold, H. cbn [less append].
  f_equal. apply replaceLoop_fuel; [|lia].
  subst s. rewrite Str.length_app in El. simpl in El. lia.
Qed.

Lemma ReplaceAll_miss (c : ascii) (s : string) (x : ascii) (old' new : string) :
  CutPrefix (String c s) (String x old') = None ->
  Replace (String c s) (String x old') new (-1) =
  String c (Replace s (String x old') new (-1)).
Proof.
  intros H. unfold Replace. cbn [budget_of Z.ltb Z.compare String.length].
  remember (String.length s) as f eqn:El.
  rewrite (replaceLoop_fuel x old' new NoLimit f (S f) s) by lia.
  cbn [replaceLoop spent]. rewrite (Cut_unfold (String c s)), H.
  destruct (Cut s (String x old')) as [[b a]|] eqn:E; [|reflexivity].
  cbn [append less]. do 3 f_equal.
Qed.


End GoFacts.

(** ** The token rewrites of runParse *)

Module Tokens.
Import Go GoFacts.

Lemma string_length_ind (P : string -> Prop) :
  (forall s, (forall r, String.length r < String.length s -> P r) -> P s) ->
  forall s, P s.
Proof.
  intros H s.
  assert (G : forall n r, String.length r < n -> P r).
  { induction n as [|n IH]; intros r Hr; [lia|].
    apply H. intros r' Hr'. apply IH. lia. }
  apply (G (S (String.length s))). lia.
Qed.

Lemma CutPrefix_shorter (s r : string) (x : ascii) (p : string) :
  CutPrefix s (String x p) = Some r -> String.length r < String.length s.
Proof.
  intros H. apply CutPrefix_sound in H. subst s.
  rewrite Str.length_app. simpl. lia.
Qed.

Lemma HasPrefix_true_cons (s : string) (x : ascii) (p : string) :
  HasPrefix s (String x p) = true ->
  exists s', s = String x s' /\ HasPrefix s' p = true.
Proof.
  destruct s as [|c s]; [discriminate|].
  rewrite HasPrefix_cons. intros H. apply andb_prop in H as [H1 H2].
  apply Ascii.eqb_eq in H1. subst c. now exists s.
Qed.

Definition ins (b : string) : string := Replace b "IDENT" "identifier" (-1).
Definition del (t : string) : string := Replace t "_LA" EmptyString (-1).

(** If the rewritten text starts with a character other than [i], so does
    the text, and no IDENT starts there. *)
Lemma ins_head (b : string) (x : ascii) (rest : string) :
  Ascii.eqb x "i" = false ->
  HasPrefix (ins b) (String x rest) = true ->
  exists b', b = String x b' /\ CutPrefix b "IDENT" = None /\
             HasPrefix (ins b') rest = true.
Proof.
  intros Hx H. unfold ins in *.
  destruct (CutPrefix b "IDENT") as [r|] eqn:E.
  - rewrite (ReplaceAll_hit _ _ _ _ _ E) in H.
    cbn [append] in H. rewrite HasPrefix_cons, Hx in H. discriminate.
  - destruct b as [|c b]; [discriminate|].
    rewrite (ReplaceAll_miss _ _ _ _ _ E) in H.
    apply HasPrefix_true_cons in H as (s' & Hs & Hp).
    inversion Hs; subst. now exists b.
Qed.

Lemma ins_no_prefix (b : string) : HasPrefix (ins b) "IDENT" = false.
Proof.
  destruct (HasPrefix (ins b) "IDENT") eqn:H; [|reflexivity].
  apply ins_head in H as (b1 & -> & E & H); [|reflexivity].
  apply ins_head in H as (b2 & -> & _ & H); [|reflexivity].
  apply ins_head in H as (b3 & -> & _ & H); [|reflexivity].
  apply ins_head in H as (b4 & -> & _ & H); [|reflexivity].
  apply ins_head in H as (b5 & -> & _ & H); [|reflexivity].
  discriminate E.
Qed.

Lemma ins_clean (b : string) : Contains (ins b) "IDENT" = false.
Proof.
  induction b as [b IH] using string_length_ind.
  destruct (CutPrefix b "IDENT") as [r|] eqn:E.
  - unfold ins. rewrite (ReplaceAll_hit _ _ _ _ _ E). fold (ins r).
    pose proof (IH r (CutPrefix_shorter _ _ _ _ E)) as Hr.
    cbn [append].
    repeat (rewrite Contains_unfold, HasPrefix_cons; cbn [Ascii.eqb Bool.eqb andb orb]).
    exact Hr.
  - destruct b as [|c b]; [reflexivity|].
    rewrite Contains_unfold, ins_no_prefix. cbn [orb].
    unfold ins. rewrite (ReplaceAll_miss _ _ _ _ _ E). fold (ins b).
    apply IH. simpl. lia.
Qed.

Lemma Contains_suffix (p r w : string) :
  Contains (p ++ r) w = false -> Contains r w = false.
Proof.
  induction p as [|c p IH]; simpl; intros H; [exact H|].
  apply Contains_cons_false in H as [_ H]. now apply IH.
Qed.

Lemma markersClosed_tail (c : ascii) (t : string) :
  markersClosed (String c t) = true -> markersClosed t = true.
Proof. cbn [markersClosed]. intros H. now apply andb_prop in H as [_ H]. Qed.

Lemma markersClosed_hit (t r : string) :
  markersClosed t = true -> CutPrefix t "_LA" = Some r ->
  headFree r = true /\ markersClosed r = true.
Proof.
  intros H E. split.
  - destruct t; cbn [markersClosed] in H; rewrite E in H;
      now apply andb_prop in H as [H _].
  - apply CutPrefix_sound in E. subst t.
    now do 3 apply markersClosed_tail in H.
Qed.

Lemma del_hit (t r : string) : CutPrefix t "_LA" = Some r -> del t = del r.
Proof. intros E. unfold del. now rewrite (ReplaceAll_hit _ _ _ _ _ E). Qed.

Lemma del_miss (c : ascii) (t : string) :
  CutPrefix (String c t) "_LA" = None -> del (String c t) = String c (del t).
Proof. intros E. unfold del. now rewrite (ReplaceAll_miss _ _ _ _ _ E). Qed.

(** Removing closed markers never brings a joinable character to the
    front. *)
Lemma del_headFree (t : string) :
  markersClosed t = true -> headFree t = true -> headFree (del t) = true.
Proof.
  induction t as [t IH] using string_length_ind. intros Hm Hh.
  destruct (CutPrefix t "_LA") as [r|] eqn:E.
  - rewrite (del_hit _ _ E).
    destruct (markersClosed_hit _ _ Hm E) as [Hr Hmr].
    apply IH; auto. exact (CutPrefix_shorter _ _ _ _ E).
  - destruct t as [|c t]; [reflexivity|].
    rewrite (del_miss _ _ E). exact Hh.
Qed.

(** If the text without its markers starts with a joinable character, so
    does the text, and no marker starts there. *)
Lemma del_head (t : string) (x : ascii) (rest : string) :
  markersClosed t = true -> joinable x = true ->
  HasPrefix (del t) (String x rest) = true ->
  exists t', t = String x t' /\ CutPrefix t "_LA" = None /\
             HasPrefix (del t') rest = true.
Proof.
  intros Hm Hx H.
  destruct (CutPrefix t "_LA") as [r|] eqn:E.
  - destruct (markersClosed_hit _ _ Hm E) as [Hr Hmr].
    rewrite (del_hit _ _ E) in H.
    pose proof (del_headFree r Hmr Hr) as Hf.
    apply HasPrefix_true_cons in H as (s' & Hs & _).
    rewrite Hs in Hf. cbn [headFree] in Hf. rewrite Hx in Hf. discriminate.
  - destruct t as [|c t]; [discriminate|].
    rewrite (del_miss _ _ E) in H.
    apply HasPrefix_true_cons in H as (s' & Hs & Hp).
    inversion Hs; subst. now exists t.
Qed.

Lemma del_no_prefix_LA (t : string) :
  markersClosed t = true -> HasPrefix (del t) "_LA" = false.
Proof.
  induction t as [t IH] using string_length_ind. intros Hm.
  destruct (CutPrefix t "_LA") as [r|] eqn:E.
  - rewrite (del_hit _ _ E).
    apply IH; [exact (CutPrefix_shorter _ _ _ _ E)|].
    exact (proj2 (markersClosed_hit _ _ Hm E)).
  - destruct t as [|c t]; [reflexivity|].
    rewrite (del_miss _ _ E).
    destruct (HasPrefix (String c (del t)) "_LA") eqn:H; [|reflexivity].
    apply HasPrefix_true_cons in H as (s' & Hs & H). inversion Hs; subst c s'.
    apply markersClosed_tail in Hm.
    apply del_head in H as (t2 & -> & _ & H); [|assumption|reflexivity].
    apply markersClosed_tail in Hm.
    apply del_head in H as (t3 & -> & _ & H); [|assumption|reflexivity].
    discriminate E.
Qed.

Lemma del_no_prefix_IDENT (t : string) :
  markersClosed t = true -> Contains t "IDENT" = false ->
  HasPrefix (del t) "IDENT" = false.
Proof.
  induction t as [t IH] using string_length_ind. intros Hm Hc.
  destruct (CutPrefix t "_LA") as [r|] eqn:E.
  - rewrite (del_hit _ _ E).
    apply IH; [exact (CutPrefix_shorter _ _ _ _ E)| |].
    + exact (proj2 (markersClosed_hit _ _ Hm E)).
    + apply CutPrefix_sound in E. subst t. now apply Contains_suffix in Hc.
  - destruct t as [|c t]; [reflexivity|].
    rewrite (del_miss _ _ E).
    destruct (HasPrefix (String c (del t)) "IDENT") eqn:H; [|reflexivity].
    apply HasPrefix_true_cons in H as (s' & Hs & H). inversion Hs; subst c s'.
    apply Contains_cons_false in Hc as [Hp _].
    apply markersClosed_tail in Hm.
    apply del_head in H as (t2 & -> & _ & H); [|assumption|reflexivity].
    apply markersClosed_tail in Hm.
    apply del_head in H as (t3 & -> & _ & H); [|assumption|reflexivity].
    apply markersClosed_tail in Hm.
    apply del_head in H as (t4 & -> & _ & H); [|assumption|reflexivity].
    apply markersClosed_tail in Hm.
    apply del_head in H as (t5 & -> & _ & H); [|assumption|reflexivity].
    discriminate Hp.
Qed.

Lemma del_clean (t : string) :
  markersClosed t = true -> Contains t "IDENT" = false ->
  Contains (del t) "IDENT" = false /\ Contains (del t) "_LA" = false.
Proof.
  induction t as [t IH] using string_length_ind. intros Hm Hc.
  destruct (CutPrefix t "_LA") as [r|] eqn:E.
  - rewrite (del_hit _ _ E).
    apply IH; [exact (CutPrefix_shorter _ _ _ _ E)| |].
    + exact (proj2 (markersClosed_hit _ _ Hm E)).
    + apply CutPrefix_sound in E. subst t. now apply Contains_suffix in Hc.
  - destruct t as [|c t]; [split; reflexivity|].
    pose proof (del_no_prefix_IDENT _ Hm Hc) as H1.
    pose proof (del_no_prefix_LA _ Hm) as H2.
    rewrite (del_miss _ _ E) in *.
    destruct (IH t) as [I1 I2]; [simpl; lia| |..].
    + now apply markersClosed_tail in Hm.
    + now apply Contains_cons_false in Hc.
    + split; rewrite Contains_unfold; [rewrite H1, I1 | rewrite H2, I2]; reflexivity.
Qed.

End Tokens.

Lemma runParse_ok X r inl top descend nosplit m e g g' b err :
  ParseGrammar X r = (g, None) ->
  Inline X g inl = (g', None) ->
  ExtractProduction X g' top descend nosplit m e = (b, err) ->
  runParse X r inl top descend nosplit m e =
  ([Log ("parse: " ++ top ++ ", inline: " ++ fmtStrings inl ++
         ", descend: " ++ fmtBool descend)],
   Some (Go.Replace (Go.Replace b "IDENT" "identifier" (-1)) "_LA" EmptyString (-1),
         err)).
Proof. intros HP HI HE. unfold runParse. now rewrite HP, HI, HE. Qed.

(** C4, as the code has it: after a successful extraction runParse returns
    the fragment with every IDENT rewritten to identifier in one pass and
    then every _LA removed in one pass.  The first pass leaves no IDENT.
    The returned bytes hold neither IDENT nor _LA when every _LA left by
    the first pass ends the text or is followed by a character other than
    A, D, E, L, N, T (the closing quote of a token name, for one); without
    that, removing a marker can join its neighbours into a new one. *)
Theorem runParse_rewrites_tokens
    X r inl top descend nosplit m e g g' b :
  ParseGrammar X r = (g, None) ->
  Inline X g inl = (g', None) ->
  ExtractProduction X g' top descend nosplit m e = (b, None) ->
  let b1 := Go.Replace b "IDENT" "identifier" (-1) in
  let b2 := Go.Replace b1 "_LA" EmptyString (-1) in
  snd (runParse X r inl top descend nosplit m e) = Some (b2, None) /\
  Go.Contains b1 "IDENT" = false /\
  (markersClosed b1 = true ->
   Go.Contains b2 "IDENT" = false /\ Go.Contains b2 "_LA" = false).
Proof.
  intros HP HI HE b1 b2.
  split; [|split].
  - now rewrite (runParse_ok _ _ _ _ _ _ _ _ _ _ _ _ HP HI HE).
  - apply Tokens.ins_clean.
  - intros Hm. apply Tokens.del_clean; [exact Hm | apply Tokens.ins_clean].
Qed.

Lemma runParse_rewrites_tokens_witness :
  snd (runParse Sample.extract Sample.grammar [] "show_stmt" false false [] []) =
    Some ("'SHOW' 'TABLES' | 'SHOW' 'NOT' identifier", None) /\
  Go.Contains "'SHOW' 'TABLES' | 'SHOW' 'NOT_LA' identifier" "IDENT" = false /\
  Go.Contains "'SHOW' 'TABLES' | 'SHOW' 'NOT' identifier" "IDENT" = false /\
  Go.Contains "'SHOW' 'TABLES' | 'SHOW' 'NOT' identifier" "_LA" = false.
Proof.
  destruct (runParse_rewrites_tokens Sample.extract Sample.grammar [] "show_stmt"
              false false [] [] Sample.grammar Sample.grammar
              "'SHOW' 'TABLES' | 'SHOW' 'NOT_LA' IDENT" eq_refl eq_refl eq_refl)
    as (H1 & H2 & H3).
  destruct (H3 eq_refl) as [H4 H5].
  exact (conj H1 (conj H2 (conj H4 H5))).
Defined.

(** C4 as stated fails: removing the marker inside [ID_LAENT] leaves an
    IDENT, and inside [_L_LAA] an _LA, in the bytes runParse returns. *)
Lemma runParse_joins_tokens :
  snd (runParse Sample.extract ("tok ::= 'ID_LAENT' | '_L_LAA'" ++ NL)
         [] "tok" false false [] []) = Some ("'IDENT' | '_LA'", None) /\
  Go.Contains "'IDENT' | '_LA'" "IDENT" = true /\
  Go.Contains "'IDENT' | '_LA'" "_LA" = true.
Proof. repeat split; reflexivity. Qed.

(** ** Traces of the workers *)

Module Trace.

Lemma bind_eq {A B} (m : Proc A) (k : A -> Proc B) :
  bind m k =
  match snd m with
  | Some a => ((fst m ++ fst (k a))%list, snd (k a))
  | None => (fst m, None)
  end.
Proof.
  destruct m as [tr [a|]]; simpl; [|reflexivity].
  now destruct (k a).
Qed.

Lemma writes_app (t1 t2 : list event) :
  writes (t1 ++ t2) = (writes t1 ++ writes t2)%list.
Proof.
  induction t1 as [|e t1 IH]; simpl; [reflexivity|].
  destruct e; simpl; now rewrite IH.
Qed.

Lemma writes_bind {A B} (m : Proc A) (k : A -> Proc B) :
  writes (fst (bind m k)) =
  (writes (fst m) ++
   match snd m with Some a => writes (fst (k a)) | None => [] end)%list.
Proof.
  rewrite bind_eq. destruct (snd m); simpl.
  - apply writes_app.
  - now rewrite app_nil_r.
Qed.

Lemma snd_bind {A B} (m : Proc A) (k : A -> Proc B) :
  snd (bind m k) =
  match snd m with Some a => snd (k a) | None => None end.
Proof. rewrite bind_eq. now destruct (snd m). Qed.

Section Workers.

Variable X : Extract.
Variable R : Runtime.

Lemma runParse_writes r inl top d n m e :
  writes (fst (runParse X r inl top d n m e)) = [].
Proof.
  unfold runParse.
  destruct (ParseGrammar X r) as [g [err|]]; [reflexivity|].
  destruct (Inline X g inl) as [g' [err|]]; [reflexivity|].
  now destruct (ExtractProduction X g' top d n m e).
Qed.

Lemma runRR_writes nm r : writes (fst (runRR X nm r)) = [].
Proof.
  unfold runRR.
  destruct (GenerateRR X r) as [html [err|]]; [reflexivity|].
  now destruct (XHTMLtoHTML X html).
Qed.

Lemma MustCompile_writes str : writes (fst (regexp_MustCompile R str)) = [].
Proof. unfold regexp_MustCompile. now destruct (regexp_Compile R str). Qed.

Lemma replaceAllRegexp_writes order g :
  writes (fst (replaceAllRegexp R order g)) = [].
Proof.
  revert g; induction order as [|[from to] rest IH]; intros g; simpl; [reflexivity|].
  rewrite writes_bind, MustCompile_writes.
  destruct (snd (regexp_MustCompile R from)); simpl; [apply IH | reflexivity].
Qed.

Lemma unlinkOne_writes u body : writes (fst (unlinkOne R u body)) = [].
Proof.
  unfold unlinkOne. destruct (Link.plain u); [reflexivity|].
  rewrite writes_bind, MustCompile_writes.
  now destruct (snd (regexp_MustCompile R _)).
Qed.

Lemma unlinkAll_writes us body : writes (fst (unlinkAll R us body)) = [].
Proof.
  revert body; induction us as [|u rest IH]; intros body; simpl; [reflexivity|].
  rewrite writes_bind, unlinkOne_writes.
  destruct (snd (unlinkOne R u body)); simpl; [apply IH | reflexivity].
Qed.

Lemma WriteFile_writes path data :
  writes (fst (ioutil_WriteFile_proc R path data)) =
  match snd (ioutil_WriteFile_proc R path data) with
  | Some None => [(path, data)]
  | _ => []
  end.
Proof.
  unfold ioutil_WriteFile_proc. now destruct (ioutil_WriteFile R path data).
Qed.

End Workers.

End Trace.

(** ** The output file of a statement *)

Section Output.

Variable X : Extract.
Variable R : Runtime.
Variables (baseDir filter : string) (printBNF : bool).

(** A statement worker writes its one file as its last act, or no file. *)
Lemma specWorker_writes bnf s lits regs :
  let p := specWorker X R baseDir filter printBNF bnf s lits regs in
  (writes (fst p) = [] /\
   (skipped filter (name s) = true \/ printBNF = true \/ snd p = None)) \/
  (exists d, writes (fst p) = [(outPath R baseDir s, d)] /\ snd p = Some tt /\
             skipped filter (name s) = false /\ printBNF = false).
Proof.
  cbv zeta. unfold specWorker. fold (skipped filter (name s)).
  destruct (skipped filter (name s)) eqn:Hskip; [left; split; [reflexivity | now left]|].
  set (s' := if stmt s =? EmptyString then set_stmt s (name s) else s).
  assert (Hn : name s' = name s) by (unfold s'; now destruct (stmt s =? EmptyString)).
  assert (Hu : unlink s' = unlink s) by (unfold s'; now destruct (stmt s =? EmptyString)).
  rewrite !Hn, Hu. unfold outPath.
  generalize (runParse X bnf (inline s') (stmt s') false (nosplit s') (match_ s') (exclude s')),
    (Trace.runParse_writes X bnf (inline s') (stmt s') false (nosplit s') (match_ s') (exclude s')).
  intros [t1 [[g [e|]]|]] W1; simpl in W1.
  - left. rewrite Trace.writes_bind, Trace.snd_bind. simpl. rewrite W1. auto.
  - rewrite Trace.writes_bind, Trace.snd_bind. cbn [fst snd]. rewrite W1. cbn [app].
    rewrite Trace.writes_bind, Trace.snd_bind.
    replace (writes (fst (if printBNF then fmt_Printf _ else ret tt))) with (@nil (string * string))
      by (destruct printBNF; reflexivity).
    replace (snd (if printBNF then fmt_Printf _ else ret tt)) with (Some tt)
      by (destruct printBNF; reflexivity).
    cbn [app].
    rewrite Trace.writes_bind, Trace.snd_bind, Trace.replaceAllRegexp_writes. cbn [app].
    destruct (snd (replaceAllRegexp R regs (replaceAllLiteral lits g))) as [g2|];
      [|left; auto].
    destruct printBNF; [left; auto|].
    rewrite Trace.writes_bind, Trace.snd_bind, Trace.runRR_writes. cbn [app].
    destruct (snd (runRR X (name s) g2)) as [[rr [e|]]|]; [left; auto| |left; auto].
    destruct (ExtractTag X rr "svg") as [body [e|]]; [left; auto|].
    rewrite Trace.writes_bind, Trace.snd_bind, Trace.unlinkAll_writes. cbn [app].
    destruct (snd (unlinkAll R (unlink s) _)) as [body2|]; [|left; auto].
    rewrite Trace.writes_bind, Trace.snd_bind, Trace.WriteFile_writes.
    destruct (snd (ioutil_WriteFile_proc R _ body2)) as [[e|]|]; [left; auto| |left; auto].
    right. exists body2. auto.
  - left. rewrite Trace.writes_bind, Trace.snd_bind. simpl. rewrite W1. auto.
Qed.

End Output.

Module Suffix.
Import Go GoFacts.





End Suffix.





(** ** The replacement loops *)

Module Loops.

Lemma replaceAllRegexp_compiles R order g :
  forallb (fun ft => regexp_Compile R (fst ft)) order = true ->
  replaceAllRegexp R order g = ret (replaceAllRegexpPure R order g).
Proof.
  revert g; induction order as [|[from to] rest IH]; intros g H; [reflexivity|].
  cbn [forallb fst] in H. apply andb_prop in H as [H1 H2].
  cbn [replaceAllRegexp]. unfold regexp_MustCompile. rewrite H1.
  rewrite bind_ret_l. now rewrite IH.
Qed.



End Loops.

Lemma runParse_returns X r inl top d n m e v :
  snd (runParse X r inl top d n m e) = Some v ->
  runParse X r inl top d n m e =
  ([Log ("parse: " ++ top ++ ", inline: " ++ fmtStrings inl ++
         ", descend: " ++ fmtBool d)], Some v).
Proof.
  unfold runParse.
  destruct (ParseGrammar X r) as [g [err|]]; [discriminate|].
  destruct (Inline X g inl) as [g' [err|]]; [discriminate|].
  destruct (ExtractProduction X g' top d n m e) as [b err].
  cbn. now intros [= <-].
Qed.

Lemma forallb_Permutation {A} (f : A -> bool) (l l' : list A) :
  Permutation l l' -> forallb f l = true -> forallb f l' = true.
Proof.
  intros HP H. apply forallb_forall. intros x Hx.
  rewrite forallb_forall in H. apply H.
  apply (Permutation_in _ (Permutation_sym HP) Hx).
Qed.

(** C2, as the code has it: [s.replace] and [s.regreplace] are Go maps, so
    the order a run visits them in is some order of their entries, not the
    order of the source.  In that order every literal replacement is made
    once, each on the result of the one before, and then every regexp
    replacement likewise.  With the print flag the worker prints the
    result; with or without it, the orders bear on what the worker does
    through that result only. *)
Theorem replacements_follow_iteration_order X R baseDir bnf s g :
  snd (runParse X bnf (inline s)
         (if stmt s =? EmptyString then name s else stmt s)
         false (nosplit s) (match_ s) (exclude s)) = Some (g, None) ->
  forallb (fun ft => regexp_Compile R (fst ft)) (regreplace s) = true ->
  let line :=
    Log ("parse: " ++ (if stmt s =? EmptyString then name s else stmt s) ++
         ", inline: " ++ fmtStrings (inline s) ++ ", descend: false") in
  let fixed lits regs :=
    fold_left (fun g ft => regexp_ReplaceAll R (fst ft) g (snd ft)) regs
      (fold_left (fun g ft => Go.Replace g (fst ft) (snd ft) (-1)) lits g) in
  (forall p,
     specRun X R baseDir EmptyString true bnf s p ->
     exists lits regs,
       Permutation (replace s) lits /\ Permutation (regreplace s) regs /\
       fst p =
       [line;
        Stdout (name s ++ ": (PRE REPLACE)" ++ NL ++ NL ++ g ++ NL);
        Stdout (name s ++ ": (POST REPLACE)" ++ NL ++ NL ++ fixed lits regs ++ NL)]) /\
  (forall printBNF lits regs lits' regs',
     Permutation (replace s) lits -> Permutation (regreplace s) regs ->
     Permutation (replace s) lits' -> Permutation (regreplace s) regs' ->
     fixed lits regs = fixed lits' regs' ->
     specWorker X R baseDir EmptyString printBNF bnf s lits regs =
     specWorker X R baseDir EmptyString printBNF bnf s lits' regs').
Proof.
  intros Hg Hc line fixed.
  apply runParse_returns in Hg. fold line in Hg.
  set (s' := if stmt s =? EmptyString then set_stmt s (name s) else s).
  assert (E : runParse X bnf (inline s') (stmt s') false (nosplit s') (match_ s') (exclude s') =
              runParse X bnf (inline s)
                (if stmt s =? EmptyString then name s else stmt s)
                false (nosplit s) (match_ s) (exclude s))
    by (unfold s'; destruct (stmt s =? EmptyString); reflexivity).
  assert (Hn : name s' = name s) by (unfold s'; now destruct (stmt s =? EmptyString)).
  assert (Hu : unlink s' = unlink s) by (unfold s'; now destruct (stmt s =? EmptyString)).
  split.
  - intros p (lits & regs & HL & HR & ->).
    exists lits, regs. split; [exact HL|]. split; [exact HR|].
    unfold specWorker. cbn [negb andb String.eqb]. fold s'.
    rewrite E, Hg, Hn. unfold bind at 1. cbv beta iota.
    rewrite (Loops.replaceAllRegexp_compiles R regs _ (forallb_Permutation _ _ _ HR Hc)).
    reflexivity.
  - intros printBNF lits regs lits' regs' HL HR HL' HR' Heq.
    unfold specWorker. cbn [negb andb String.eqb]. fold s'.
    rewrite E, Hg. unfold bind at 1. unfold bind at 6. cbv beta iota.
    rewrite (Loops.replaceAllRegexp_compiles R regs _ (forallb_Permutation _ _ _ HR Hc)).
    rewrite (Loops.replaceAllRegexp_compiles R regs' _ (forallb_Permutation _ _ _ HR' Hc)).
    rewrite !bind_ret_l.
    change (replaceAllRegexpPure R regs (replaceAllLiteral lits g)) with (fixed lits regs).
    change (replaceAllRegexpPure R regs' (replaceAllLiteral lits' g)) with (fixed lits' regs').
    now rewrite Heq.
Qed.

Lemma truncateOrder_Permutation :
  Permutation (replace (Sample.the "truncate_stmt")) Sample.truncateOrder.
Proof.
  exact (Permutation_app_comm
           [("'ONLY' '(' qualified_name ')'", EmptyString);
            ("'ONLY' qualified_name", EmptyString)]
           [("qualified_name", "table_name");
            ("'*'", EmptyString); ("'CASCADE'", EmptyString);
            ("'RESTRICT'", EmptyString)]).
Qed.


Lemma replacements_follow_iteration_order_witness :
  exists lits regs,
    Permutation (replace (Sample.the "truncate_stmt")) lits /\
    Permutation (regreplace (Sample.the "truncate_stmt")) regs /\
    fst (specWorker Sample.extract Sample.runtime "out" EmptyString true
           Sample.truncateGrammar (Sample.the "truncate_stmt")
           Sample.truncateOrder []) =
    [Log ("parse: truncate_stmt, inline: " ++
          "[opt_table relation_expr_list relation_expr opt_drop_behavior]" ++
          ", descend: false");
     Stdout ("truncate_stmt: (PRE REPLACE)" ++ NL ++ NL ++
             "'TRUNCATE' 'TABLE' 'ONLY' qualified_name" ++ NL);
     Stdout ("truncate_stmt: (POST REPLACE)" ++ NL ++ NL ++
             fold_left (fun g ft => regexp_ReplaceAll Sample.runtime (fst ft) g (snd ft)) regs
               (fold_left (fun g ft => Go.Replace g (fst ft) (snd ft) (-1)) lits
                  "'TRUNCATE' 'TABLE' 'ONLY' qualified_name")
             ++ NL)].
Proof.
  apply (proj1 (replacements_follow_iteration_order Sample.extract Sample.runtime
                  "out" Sample.truncateGrammar (Sample.the "truncate_stmt")
                  "'TRUNCATE' 'TABLE' 'ONLY' qualified_name" eq_refl eq_refl)).
  exists Sample.truncateOrder, [].
  split; [exact truncateOrder_Permutation | split; [constructor | reflexivity]].
Defined.

(** C2 as stated fails: a run of the [truncate_stmt] of main.go may visit
    [qualified_name] before ['ONLY' qualified_name]; the fragment it prints
    is not the one the order of the source gives. *)
Lemma replacements_out_of_listed_order :
  specRun Sample.extract Sample.runtime "out" EmptyString true
    Sample.truncateGrammar (Sample.the "truncate_stmt")
    (specWorker Sample.extract Sample.runtime "out" EmptyString true
       Sample.truncateGrammar (Sample.the "truncate_stmt")
       Sample.truncateOrder []) /\
  fst (specWorker Sample.extract Sample.runtime "out" EmptyString true
         Sample.truncateGrammar (Sample.the "truncate_stmt")
         Sample.truncateOrder []) =
    [Log ("parse: truncate_stmt, inline: " ++
          "[opt_table relation_expr_list relation_expr opt_drop_behavior]" ++
          ", descend: false");
     Stdout ("truncate_stmt: (PRE REPLACE)" ++ NL ++ NL ++
             "'TRUNCATE' 'TABLE' 'ONLY' qualified_name" ++ NL);
     Stdout ("truncate_stmt: (POST REPLACE)" ++ NL ++ NL ++
             "'TRUNCATE' 'TABLE' 'ONLY' table_name" ++ NL)] /\
  replaceAllLiteral (replace (Sample.the "truncate_stmt"))
    "'TRUNCATE' 'TABLE' 'ONLY' qualified_name" = "'TRUNCATE' 'TABLE' ".
Proof.
  split; [|split; reflexivity].
  exists Sample.truncateOrder, [].
  split; [exact truncateOrder_Permutation | split; [constructor | reflexivity]].
Qed.




(** ** The process *)

Module Exec.

Lemma In_writes (tr : list event) (path data : string) :
  In (path, data) (writes tr) <-> In (FileWrite path data) tr.
Proof.
  induction tr as [|e tr IH]; simpl; [tauto|].
  destruct e; simpl; rewrite IH; split; intros H;
    try (now right); try (destruct H as [H|H]; [discriminate | assumption]).
  - destruct H as [H|H]; [left; now inversion H | now right].
  - destruct H as [H|H]; [left; now inversion H | now right].
Qed.


(** Every event of the run is an event of one of the goroutines. *)
Lemma sound ws tr :
  exec ws tr -> forall e, In e tr -> exists w, In w ws /\ In e w.
Proof.
  induction 1 as [ws H|ws1 e0 w ws2 tr He0 Hex IH|ws1 e0 w ws2 He0]; intros e He.
  - destruct He.
  - destruct He as [<-|He].
    + exists (e0 :: w). split; [apply in_elt | now left].
    + destruct (IH e He) as (w' & Hw' & Hin).
      apply in_app_or in Hw' as [Hw'|[<-|Hw']].
      * exists w'. split; [apply in_or_app; now left | assumption].
      * exists (e0 :: w). split; [apply in_elt | now right].
      * exists w'. split; [apply in_or_app; right; now right | assumption].
  - destruct He as [<-|[]]. exists (e0 :: w). split; [apply in_elt | now left].
Qed.







Section Workers.

Variable X : Extract.
Variable R : Runtime.
Variables (baseDir filter : string) (printBNF : bool).









End Workers.

End Exec.

Module Schedule.

Lemma exec_idle ws tr : exec ws tr -> exec ([] :: ws) tr.
Proof.
  induction 1 as [ws H|ws1 e0 w ws2 tr He0 Hex IH|ws1 e0 w ws2 He0].
  - apply exec_done. now constructor.
  - exact (exec_step ([] :: ws1) e0 w ws2 tr He0 IH).
  - exact (exec_fatal ([] :: ws1) e0 w ws2 He0).
Qed.

(** The goroutines may run one after the other, in the order they were
    started. *)
Lemma exec_in_turn ws : exec ws (untilFatal (concat ws)).
Proof.
  induction ws as [|w ws IH]; [apply exec_done; constructor|].
  induction w as [|e w IHw]; [now apply exec_idle|].
  cbn [concat app untilFatal]. destruct (fatal e) eqn:He.
  - exact (exec_fatal [] e w ws He).
  - exact (exec_step [] e w ws _ He IHw).
Qed.


Lemma Forall2_In_r {A B} (P : A -> B -> Prop) l l' y :
  Forall2 P l l' -> In y l' -> exists x, In x l /\ P x y.
Proof.
  induction 1 as [|a b l l' Hab H IH]; intros Hy; [destruct Hy|].
  destruct Hy as [<-|Hy]; [exists a; split; [now left | assumption]|].
  destruct (IH Hy) as (x & Hx & Hp). exists x. split; [now right | assumption].
Qed.

Lemma runBNF_eq X addr :
  runBNF X addr = ([Log ("generate BNF: " ++ addr)], Some (GenerateBNF X addr)).
Proof. reflexivity. Qed.

End Schedule.



(** ** Sample runs *)









(** ** The link-removing loop on markup without nested links *)

Module MarkupFacts.
Import Go GoFacts Markup.

Lemma agree_app (a b lit : string) : agree (a ++ b) lit = true -> agree a lit = true.
Proof.
  revert lit; induction a as [|c a IH]; intros lit H; [reflexivity|].
  destruct lit as [|x lit]; [reflexivity|]. cbn [append agree] in *.
  apply andb_prop in H as [H1 H2]. rewrite H1. cbn [andb]. now apply IH.
Qed.

Lemma CutPrefix_agree (a b lit r : string) :
  CutPrefix (a ++ b) lit = Some r -> agree a lit = true.
Proof.
  revert a; induction lit as [|x lit IH]; intros a H.
  - now destruct a.
  - destruct a as [|c a]; [reflexivity|]. cbn [append agree CutPrefix] in *.
    destruct (Ascii.eqb x c); [|discriminate]. cbn [andb]. now apply IH.
Qed.

Lemma CutPrefix_app_l (a b lit a' : string) :
  CutPrefix a lit = Some a' -> CutPrefix (a ++ b) lit = Some (a' ++ b).
Proof.
  intros H. apply CutPrefix_sound in H. subst a.
  rewrite Str.app_assoc. apply CutPrefix_app.
Qed.

Lemma drop_app (k : nat) (a b : string) :
  exists y, drop k (a ++ b) = drop k a ++ y.
Proof.
  revert a; induction k as [|k IH]; intros a.
  - exists b. now destruct a.
  - destruct a as [|c a]; cbn [append drop].
    + exists (drop (S k) b). reflexivity.
    + apply IH.
Qed.

Lemma drop_app_agree (k : nat) (a b lit : string) :
  agree (drop k (a ++ b)) lit = true -> agree (drop k a) lit = true.
Proof.
  destruct (drop_app k a b) as [y ->]. apply agree_app.
Qed.

Lemma length_drop (k : nat) (s : string) :
  String.length (drop k s) <= String.length s.
Proof.
  revert s; induction k as [|k IH]; intros s; [destruct s; simpl; lia|].
  destruct s as [|c s]; simpl; [lia|]. specialize (IH s). lia.
Qed.

Lemma DecodeRuneSize_le4 (s : string) : utf8.DecodeRuneSize s <= 4.
Proof.
  unfold utf8.DecodeRuneSize.
  destruct s as [|c s]; [lia|].
  destruct (utf8.first c) as [[[sz lo] hi]|]; [|lia].
  destruct (String.length (String c s) <? sz)%nat; [lia|].
  destruct s as [|b1 r1]; [lia|].
  destruct (negb (utf8.between lo hi b1)); [lia|].
  destruct (sz <=? 2)%nat; [lia|].
  destruct r1 as [|b2 r2]; [lia|].
  destruct (negb (utf8.between 128 191 b2)); [lia|].
  destruct (sz <=? 3)%nat; [lia|].
  destruct r2 as [|b3 r3]; [lia|].
  destruct (negb (utf8.between 128 191 b3)); lia.
Qed.

(** An opening tag at the head of a text shows in any non-empty start of
    the text. *)
Lemma open_opens (u : string) (c : ascii) (a b r : string) :
  Link.open u (String c a ++ b) = Some r -> opens u (String c a) = true.
Proof.
  unfold Link.open, opens.
  destruct (CutPrefix (String c a ++ b) Link.lit1) as [r1|] eqn:E1; [|discriminate].
  destruct (CutPrefix (String c a) Link.lit1) as [a1|] eqn:E2;
    [|intros _; exact (CutPrefix_agree _ _ _ _ E1)].
  rewrite (CutPrefix_app_l _ b _ _ E2) in E1. inversion E1; subst r1; clear E1.
  destruct a1 as [|c1 a1]; [reflexivity|].
  unfold Link.dot. cbn [append].
  destruct (Ascii.eqb c1 "010"); [discriminate|]. cbn [negb andb].
  change (String c1 (a1 ++ b)) with (String c1 a1 ++ b).
  pose proof (DecodeRuneSize_le4 (String c1 a1 ++ b)) as Hle.
  pose proof (Rune.DecodeRuneSize_pos c1 (a1 ++ b)) as Hpos.
  cbn [append] in Hpos.
  change (String c1 (a1 ++ b)) with (String c1 a1 ++ b) in Hpos.
  destruct (drop_app (utf8.DecodeRuneSize (String c1 a1 ++ b)) (String c1 a1) b)
    as [y Hy].
  rewrite Hy. intros H. apply CutPrefix_agree in H.
  destruct (utf8.DecodeRuneSize (String c1 a1 ++ b)) as [|[|[|[|[|n]]]]];
    try lia; cbn [drop] in H |- *; rewrite H; cbn [orb];
    repeat rewrite orb_true_r; reflexivity.
Qed.

Lemma opens_app (u : string) (c : ascii) (a b : string) :
  opens u (String c a ++ b) = true -> opens u (String c a) = true.
Proof.
  unfold opens.
  destruct (CutPrefix (String c a) Link.lit1) as [a1|] eqn:E2.
  - rewrite (CutPrefix_app_l _ b _ _ E2).
    destruct a1 as [|c1 a1]; [reflexivity|]. cbn [append].
    change (String c1 (a1 ++ b)) with (String c1 a1 ++ b).
    intros H. apply andb_prop in H as [H1 H2]. rewrite H1. cbn [andb].
    apply orb_prop in H2 as [H2|H2];
      [apply orb_prop in H2 as [H2|H2]; [apply orb_prop in H2 as [H2|H2]|]|].
    + apply agree_app in H2. now rewrite H2.
    + apply drop_app_agree in H2. rewrite H2. now rewrite orb_true_r.
    + apply drop_app_agree in H2. rewrite H2. now rewrite !orb_true_r.
    + apply drop_app_agree in H2. rewrite H2. now rewrite !orb_true_r.
  - destruct (CutPrefix (String c a ++ b) Link.lit1) as [r1|] eqn:E1.
    + intros _. exact (CutPrefix_agree _ _ _ _ E1).
    + apply agree_app.
Qed.

Lemma clean_head (u : string) (c : ascii) (t : string) :
  clean u (String c t) = true -> opens u (String c t) = false /\ clean u t = true.
Proof.
  cbn [clean]. intros H. apply andb_prop in H as [H1 H2].
  now apply negb_true_iff in H1.
Qed.

Lemma clean_app (u a b : string) :
  clean u a = true -> clean u b = true -> clean u (a ++ b) = true.
Proof.
  induction a as [|c a IH]; intros Ha Hb; [exact Hb|].
  apply clean_head in Ha as [Ho Ha].
  cbn [append clean]. rewrite (IH Ha Hb), andb_true_r.
  apply negb_true_iff.
  destruct (opens u (String c (a ++ b))) eqn:E; [|reflexivity].
  change (String c (a ++ b)) with (String c a ++ b) in E.
  apply opens_app in E. congruence.
Qed.

Lemma lit1_cons : exists rest, Link.lit1 = String "<" rest.
Proof. eexists. reflexivity. Qed.

Lemma matchAt_shorter (u s inner rest : string) :
  Link.matchAt u s = Some (inner, rest) -> String.length rest < String.length s.
Proof.
  unfold Link.matchAt, Link.open.
  destruct (CutPrefix s Link.lit1) as [r1|] eqn:E1; [|discriminate].
  destruct lit1_cons as [l1 Hl]. rewrite Hl in E1.
  pose proof (Tokens.CutPrefix_shorter _ _ _ _ E1) as H1.
  destruct (Link.dot r1) as [r2|] eqn:E2; [|discriminate].
  assert (H2 : String.length r2 <= String.length r1).
  { unfold Link.dot in E2. destruct r1 as [|c r1]; [discriminate|].
    destruct (Ascii.eqb c "010"); [discriminate|].
    inversion E2. apply length_drop. }
  destruct (CutPrefix r2 (Link.lit2 u)) as [r|] eqn:E3; [|discriminate].
  assert (H3 : String.length r <= String.length r2).
  { apply CutPrefix_sound in E3. subst r2. rewrite Str.length_app. lia. }
  intros H. pose proof (Cut_shorter _ _ _ _ "<" "/a>" eq_refl H). lia.
Qed.

Lemma linkLoop_fuel (u : string) :
  forall f1 f2 body,
    String.length body <= f1 -> String.length body <= f2 ->
    Link.replaceLoop f1 u body = Link.replaceLoop f2 u body.
Proof.
  induction f1 as [|f1 IH]; intros f2 body H1 H2.
  - destruct body; [|simpl in H1; lia]. now destruct f2.
  - destruct f2 as [|f2]; [destruct body; [reflexivity | simpl in H2; lia]|].
    cbn [Link.replaceLoop].
    destruct (Link.matchAt u body) as [[inner rest]|] eqn:E.
    + pose proof (matchAt_shorter _ _ _ _ E). f_equal. apply IH; lia.
    + destruct body as [|c body]; [reflexivity|]. f_equal.
      simpl in H1, H2. apply IH; lia.
Qed.

Lemma ReplaceAllString1_hit (u s inner rest : string) :
  Link.matchAt u s = Some (inner, rest) ->
  Link.ReplaceAllString1 u s = inner ++ Link.ReplaceAllString1 u rest.
Proof.
  intros E. pose proof (matchAt_shorter _ _ _ _ E) as H.
  unfold Link.ReplaceAllString1.
  destruct (String.length s) as [|f] eqn:El; [lia|].
  cbn [Link.replaceLoop]. rewrite E. f_equal. apply linkLoop_fuel; lia.
Qed.

Lemma ReplaceAllString1_miss (u : string) (c : ascii) (s : string) :
  Link.matchAt u (String c s) = None ->
  Link.ReplaceAllString1 u (String c s) = String c (Link.ReplaceAllString1 u s).
Proof.
  intros E. unfold Link.ReplaceAllString1.
  cbn [String.length Link.replaceLoop]. now rewrite E.
Qed.

Lemma matchAt_clean (u : string) (c : ascii) (t rest : string) :
  opens u (String c t) = false -> Link.matchAt u (String c t ++ rest) = None.
Proof.
  intros H. unfold Link.matchAt.
  destruct (Link.open u (String c t ++ rest)) as [r|] eqn:E; [|reflexivity].
  apply open_opens in E. congruence.
Qed.

(** The loop copies a piece in which no link starts. *)
Lemma pass_text (u t rest : string) :
  clean u t = true ->
  Link.ReplaceAllString1 u (t ++ rest) = t ++ Link.ReplaceAllString1 u rest.
Proof.
  induction t as [|c t IH]; intros H; [reflexivity|].
  apply clean_head in H as [Ho Hc].
  cbn [append]. rewrite ReplaceAllString1_miss.
  - f_equal. now apply IH.
  - exact (matchAt_clean u c t rest Ho).
Qed.

Lemma open_tag (u rest : string) : Link.open u (tag u ++ rest) = Some rest.
Proof.
  unfold Link.open, tag. rewrite Str.app_assoc, CutPrefix_app.
  rewrite Str.app_assoc. cbn [append Link.dot Ascii.eqb Bool.eqb].
  cbn [utf8.DecodeRuneSize utf8.first N_of_ascii N_of_digits N.ltb N.compare
       N.add N.mul Pos.compare Pos.compare_cont Pos.add Pos.mul drop].
  apply CutPrefix_app.
Qed.

Lemma Cut_unclosed (inner rest : string) :
  unclosed inner = true ->
  Cut (inner ++ Link.close ++ rest) Link.close = Some (inner, rest).
Proof.
  induction inner as [|c inner IH]; intros H.
  - rewrite Cut_unfold. cbn [append]. now rewrite CutPrefix_app.
  - cbn [unclosed] in H. apply andb_prop in H as [H1 H2].
    apply negb_true_iff in H1.
    rewrite Cut_unfold.
    destruct (CutPrefix (String c inner ++ Link.close ++ rest) Link.close) eqn:E.
    + apply CutPrefix_agree in E. congruence.
    + cbn [append]. now rewrite (IH H2).
Qed.

(** The loop replaces a link whose content holds no [</a>] by that
    content. *)
Lemma pass_anchor (u inner rest : string) :
  unclosed inner = true ->
  Link.ReplaceAllString1 u (tag u ++ inner ++ Link.close ++ rest) =
  inner ++ Link.ReplaceAllString1 u rest.
Proof.
  intros H. apply ReplaceAllString1_hit.
  unfold Link.matchAt. rewrite open_tag. now apply Cut_unclosed.
Qed.

Lemma isWord_not_lt (c : ascii) : Link.isWord c = true -> Ascii.eqb "<" c = false.
Proof.
  destruct c as [[] [] [] [] [] [] [] []]; intros H; try reflexivity; discriminate H.
Qed.

Lemma isWord_not_DQ (c : ascii) : Link.isWord c = true -> Ascii.eqb c "034" = false.
Proof.
  destruct c as [[] [] [] [] [] [] [] []]; intros H; try reflexivity; discriminate H.
Qed.

Lemma noLt_app (a b : string) : noLt (a ++ b) = noLt a && noLt b.
Proof.
  induction a as [|c a IH]; [reflexivity|].
  cbn [append noLt]. rewrite IH. now rewrite andb_assoc.
Qed.

Lemma plain_noLt (v : string) : Link.plain v = true -> noLt v = true.
Proof.
  induction v as [|c v IH]; [reflexivity|]. cbn [Link.plain noLt].
  intros H. apply andb_prop in H as [H1 H2].
  now rewrite (isWord_not_lt c H1), (IH H2).
Qed.

Lemma clean_noLt (u t : string) : noLt t = true -> clean u t = true.
Proof.
  induction t as [|c t IH]; [reflexivity|]. cbn [noLt clean].
  intros H. apply andb_prop in H as [H1 H2]. apply negb_true_iff in H1.
  rewrite (IH H2), andb_true_r. apply negb_true_iff.
  unfold opens. destruct lit1_cons as [l1 ->].
  cbn [CutPrefix agree]. now rewrite H1.
Qed.

(** Two names made of letters, digits and underscores, each followed by
    a double quote, differ within their common length. *)
Lemma agree_names (v u x y : string) :
  Link.plain v = true -> Link.plain u = true -> (v =? u) = false ->
  agree (v ++ DQ ++ x) (u ++ DQ ++ y) = false.
Proof.
  revert u; induction v as [|c v IH]; intros u Hv Hu Hne.
  - destruct u as [|d u]; [discriminate|].
    cbn [Link.plain] in Hu. apply andb_prop in Hu as [Hd _].
    cbn [append agree DQ]. now rewrite (isWord_not_DQ d Hd).
  - cbn [Link.plain] in Hv. apply andb_prop in Hv as [Hc Hv].
    destruct u as [|d u].
    + cbn [append agree DQ]. rewrite Ascii.eqb_sym. now rewrite (isWord_not_DQ c Hc).
    + cbn [Link.plain] in Hu. apply andb_prop in Hu as [Hd Hu].
      cbn [append agree]. cbn [String.eqb] in Hne.
      rewrite Ascii.eqb_sym.
      destruct (Ascii.eqb c d); [|reflexivity]. cbn [andb]. now apply IH.
Qed.

Lemma tag_shape (v : string) :
  tag v =
  String "<" (("a xlink:href=" ++ DQ ++ "sql-grammar.html#") ++ v ++
              (DQ ++ " xlink:title=" ++ DQ) ++ v ++ (DQ ++ ">")).
Proof. reflexivity. Qed.

Lemma opens_tag_other (u v : string) :
  Link.plain u = true -> Link.plain v = true -> (v =? u) = false ->
  opens u (tag v) = false.
Proof.
  intros Hu Hv Hne. unfold opens, tag. rewrite CutPrefix_app.
  cbn [append Ascii.eqb Bool.eqb negb andb drop Link.lit2].
  cbn [agree Ascii.eqb Bool.eqb andb orb].
  now rewrite (agree_names v u _ _ Hv Hu Hne).
Qed.

Lemma clean_tag_other (u v : string) :
  Link.plain u = true -> Link.plain v = true -> (v =? u) = false ->
  clean u (tag v) = true.
Proof.
  intros Hu Hv Hne.
  pose proof (opens_tag_other u v Hu Hv Hne) as Ho.
  rewrite tag_shape in *. cbn [clean]. rewrite Ho. cbn [negb andb].
  apply clean_noLt. rewrite !noLt_app, (plain_noLt v Hv). reflexivity.
Qed.

Lemma clean_close (u : string) : clean u Link.close = true.
Proof. reflexivity. Qed.

Lemma forallb_In {A} (f : A -> bool) (l : list A) (x : A) :
  forallb f l = true -> In x l -> f x = true.
Proof. intros H. now apply forallb_forall. Qed.

(** One turn of the loop over markup without nested links. *)
Lemma pass_markup (us : list string) (u : string) (d : list piece) :
  forallb Link.plain us = true -> In u us -> flat us d = true ->
  Link.ReplaceAllString1 u (markup d) = markup (strip u d).
Proof.
  intros Hp Hu. pose proof (forallb_In _ _ _ Hp Hu) as Hpu.
  induction d as [|p d IH]; intros Hf; [reflexivity|].
  cbn [flat forallb] in Hf. apply andb_prop in Hf as [Hok Hf].
  specialize (IH Hf). destruct p as [t|v inner]; cbn [strip map markup].
  - cbn [pieceOk] in Hok. rewrite (pass_text u t _ (forallb_In _ _ _ Hok Hu)).
    f_equal. exact IH.
  - cbn [pieceOk] in Hok. apply andb_prop in Hok as [Hok Hun].
    apply andb_prop in Hok as [Hv Hcl].
    destruct (v =? u) eqn:E.
    + apply String.eqb_eq in E. subst v. cbn [markup].
      rewrite (pass_anchor u inner _ Hun). f_equal. exact IH.
    + cbn [markup].
      rewrite (pass_text u (tag v) _ (clean_tag_other u v Hpu Hv E)).
      rewrite (pass_text u inner _ (forallb_In _ _ _ Hcl Hu)).
      rewrite (pass_text u Link.close _ (clean_close u)).
      do 3 f_equal. exact IH.
Qed.

Lemma flat_strip (us : list string) (u : string) (d : list piece) :
  flat us d = true -> flat us (strip u d) = true.
Proof.
  induction d as [|p d IH]; intros Hf; [reflexivity|].
  cbn [flat forallb] in Hf. apply andb_prop in Hf as [Hok Hf].
  cbn [strip map flat forallb]. fold (strip u d). fold (flat us (strip u d)).
  rewrite (IH Hf), andb_true_r.
  destruct p as [t|v inner]; [exact Hok|].
  destruct (v =? u); [|exact Hok].
  cbn [pieceOk] in *. apply andb_prop in Hok as [Hok _].
  now apply andb_prop in Hok as [_ Hok].
Qed.

Lemma links_strip_same (u : string) (d : list piece) : links u (strip u d) = false.
Proof.
  induction d as [|p d IH]; [reflexivity|].
  cbn [strip map links existsb]. fold (strip u d). fold (links u (strip u d)).
  rewrite IH, orb_false_r.
  destruct p as [t|v inner]; [reflexivity|].
  destruct (v =? u) eqn:E; [reflexivity | exact E].
Qed.

Lemma links_strip_other (u w : string) (d : list piece) :
  links u d = false -> links u (strip w d) = false.
Proof.
  induction d as [|p d IH]; intros H; [reflexivity|].
  cbn [links existsb] in H. apply orb_false_elim in H as [H1 H2].
  cbn [strip map links existsb]. fold (strip w d). fold (links u (strip w d)).
  rewrite (IH H2), orb_false_r.
  destruct p as [t|v inner]; [reflexivity|].
  destruct (v =? w); [reflexivity | exact H1].
Qed.

Lemma links_strip_all (u : string) (us : list string) (d : list piece) :
  In u us -> links u (fold_left (fun d u => strip u d) us d) = false.
Proof.
  assert (K : forall us d, links u d = false ->
                links u (fold_left (fun d u => strip u d) us d) = false).
  { clear. induction us as [|w us IH]; intros d H; [exact H|].
    cbn [fold_left]. apply IH. now apply links_strip_other. }
  revert d; induction us as [|w us IH]; intros d Hu; [destruct Hu|].
  cbn [fold_left]. destruct Hu as [->|Hu].
  - apply K, links_strip_same.
  - now apply IH.
Qed.

Lemma flat_strip_all (us us' : list string) (d : list piece) :
  flat us d = true -> flat us (fold_left (fun d u => strip u d) us' d) = true.
Proof.
  revert d; induction us' as [|w us' IH]; intros d H; [exact H|].
  cbn [fold_left]. apply IH. now apply flat_strip.
Qed.

(** Markup without nested links and without a link to [u] gives no link
    to [u] anywhere to start. *)
Lemma clean_markup (us : list string) (u : string) (d : list piece) :
  forallb Link.plain us = true -> In u us -> flat us d = true ->
  links u d = false -> clean u (markup d) = true.
Proof.
  intros Hp Hu. pose proof (forallb_In _ _ _ Hp Hu) as Hpu.
  induction d as [|p d IH]; intros Hf Hl; [reflexivity|].
  cbn [flat forallb] in Hf. apply andb_prop in Hf as [Hok Hf].
  cbn [links existsb] in Hl. apply orb_false_elim in Hl as [Hl1 Hl2].
  specialize (IH Hf Hl2). destruct p as [t|v inner]; cbn [markup].
  - cbn [pieceOk] in Hok. apply clean_app; [|exact IH].
    exact (forallb_In _ _ _ Hok Hu).
  - cbn [pieceOk] in Hok. apply andb_prop in Hok as [Hok Hun].
    apply andb_prop in Hok as [Hv Hcl].
    apply clean_app; [exact (clean_tag_other u v Hpu Hv Hl1)|].
    apply clean_app; [exact (forallb_In _ _ _ Hcl Hu)|].
    apply clean_app; [apply clean_close | exact IH].
Qed.

Lemma clean_no_match (u s : string) :
  clean u s = true -> Link.MatchString u s = false.
Proof.
  induction s as [|c s IH]; intros H; [reflexivity|].
  apply clean_head in H as [Ho Hc].
  cbn [Link.MatchString].
  pose proof (matchAt_clean u c s EmptyString Ho) as Hm.
  rewrite Str.app_nil_r in Hm. rewrite Hm. now apply IH.
Qed.

(** The loop over [s.unlink] on markup without nested links. *)
Lemma unlinkAll_flat (R : Runtime) (us us' : list string) (d : list piece) :
  forallb Link.plain us = true -> incl us' us -> flat us d = true ->
  unlinkAll R us' (markup d) =
  ret (markup (fold_left (fun d u => strip u d) us' d)).
Proof.
  intros Hp. revert d; induction us' as [|u us' IH]; intros d Hi Hf; [reflexivity|].
  assert (Hu : In u us) by (apply Hi; now left).
  cbn [unlinkAll fold_left]. unfold unlinkOne.
  rewrite (forallb_In _ _ _ Hp Hu). rewrite bind_ret_l.
  rewrite (pass_markup us u d Hp Hu Hf).
  apply IH; [|now apply flat_strip].
  intros x Hx. apply Hi. now right.
Qed.

End MarkupFacts.

(** C9, as the code has it: for a statement whose unlink names are made
    of letters, digits and underscores, when the markup that reaches the
    loop over s.unlink has no nested links (it is made of text and of
    links, and no text and no content of a link can begin a link to an
    unlink name or, for a content, a closing tag), the file written holds
    that markup with every link to an unlink name replaced, in place, by
    what the link encloses, and no link to an unlink name is left in it.
    Each name gets one pass from left to right, a link ending at the first
    closing tag after its opening tag: a link nested in a link to the same
    name is left in the output. *)
Theorem unlinked_names_lose_their_links
    X R baseDir filter bnf s lits regs g g2 rr svg d :
  skipped filter (name s) = false ->
  snd (runParse X bnf (inline s)
         (if stmt s =? EmptyString then name s else stmt s)
         false (nosplit s) (match_ s) (exclude s)) = Some (g, None) ->
  snd (replaceAllRegexp R regs (replaceAllLiteral lits g)) = Some g2 ->
  snd (runRR X (name s) g2) = Some (rr, None) ->
  ExtractTag X rr "svg" = (svg, None) ->
  Go.Replace svg ("<a xlink:href=" ++ DQ ++ "#")
    ("<a xlink:href=" ++ DQ ++ "sql-grammar.html#") (-1) = Markup.markup d ->
  forallb Link.plain (unlink s) = true ->
  Markup.flat (unlink s) d = true ->
  let data :=
    Markup.markup (fold_left (fun d u => Markup.strip u d) (unlink s) d) in
  ioutil_WriteFile R (outPath R baseDir s) data = None ->
  writes (fst (specWorker X R baseDir filter false bnf s lits regs)) =
    [(outPath R baseDir s, data)] /\
  forallb (fun u => negb (Link.MatchString u data)) (unlink s) = true.
Proof.
  intros Hskip Hg Hg2 Hrr Hsvg Hm Hp Hf data Hw.
  split.
  - unfold specWorker. fold (skipped filter (name s)). rewrite Hskip.
    set (s' := if stmt s =? EmptyString then set_stmt s (name s) else s).
    assert (E : runParse X bnf (inline s') (stmt s') false (nosplit s') (match_ s')
                  (exclude s') =
                runParse X bnf (inline s)
                  (if stmt s =? EmptyString then name s else stmt s)
                  false (nosplit s) (match_ s) (exclude s))
      by (unfold s'; destruct (stmt s =? EmptyString); reflexivity).
    assert (Hn : name s' = name s) by (unfold s'; now destruct (stmt s =? EmptyString)).
    assert (Hu : unlink s' = unlink s) by (unfold s'; now destruct (stmt s =? EmptyString)).
    rewrite E, !Hn, Hu. fold (outPath R baseDir s).
    rewrite Trace.writes_bind, Trace.runParse_writes, Hg. cbn [app].
    rewrite Trace.writes_bind. cbn [fst snd ret writes app].
    rewrite Trace.writes_bind, Trace.replaceAllRegexp_writes, Hg2. cbn [app].
    rewrite Trace.writes_bind, Trace.runRR_writes, Hrr. cbn [app].
    rewrite Hsvg, Hm.
    rewrite (MarkupFacts.unlinkAll_flat R (unlink s) (unlink s) d Hp (incl_refl _) Hf).
    rewrite bind_ret_l. fold data.
    unfold ioutil_WriteFile_proc. rewrite Hw. reflexivity.
  - apply forallb_forall. intros u Hu. apply negb_true_iff.
    apply MarkupFacts.clean_no_match.
    apply (MarkupFacts.clean_markup (unlink s) u _ Hp Hu).
    + now apply MarkupFacts.flat_strip_all.
    + now apply MarkupFacts.links_strip_all.
Qed.

Lemma unlinked_names_lose_their_links_witness :
  writes (fst (specWorker (Sample.rendering Sample.databaseSvg) Sample.runtime
                 "out" EmptyString false Sample.databaseGrammar
                 (Sample.the "create_database_stmt")
                 [("'SCONST'", "encoding")] [])) =
    [("out/create_database.html",
      "<svg><text>CREATE</text><text>DATABASE</text>" ++
      "<rect/><text>name</text>" ++
      Markup.tag "opt_with" ++ "<rect/><text>opt_with</text></a>" ++
      "<rect/><text>encoding</text></svg>")] /\
  forallb
    (fun u =>
       negb (Link.MatchString u
               ("<svg><text>CREATE</text><text>DATABASE</text>" ++
                "<rect/><text>name</text>" ++
                Markup.tag "opt_with" ++ "<rect/><text>opt_with</text></a>" ++
                "<rect/><text>encoding</text></svg>")))
    ["name"; "encoding"] = true.
Proof.
  exact (unlinked_names_lose_their_links
           (Sample.rendering Sample.databaseSvg) Sample.runtime "out" EmptyString
           Sample.databaseGrammar (Sample.the "create_database_stmt")
           [("'SCONST'", "encoding")] []
           "'CREATE' 'DATABASE' name opt_with 'SCONST'"
           "'CREATE' 'DATABASE' name opt_with encoding"
           Sample.databaseSvg Sample.databaseSvg Sample.databasePieces
           eq_refl eq_refl eq_refl eq_refl eq_refl eq_refl eq_refl eq_refl eq_refl).
Defined.

(** C9 as stated fails: when the renderer returns a link to [name] inside
    a link to [name], the markup written for [create_database_stmt] of
    main.go, which unlinks [name], still holds a link to [name]. *)
Lemma nested_link_survives :
  writes (fst (specWorker (Sample.rendering Sample.nestedSvg) Sample.runtime
                 "out" EmptyString false Sample.databaseGrammar
                 (Sample.the "create_database_stmt")
                 [("'SCONST'", "encoding")] [])) =
    [("out/create_database.html",
      "<svg><g>" ++ Markup.tag "name" ++ "<text>name</text></g></a></svg>")] /\
  In "name" (unlink (Sample.the "create_database_stmt")) /\
  Link.MatchString "name"
    ("<svg><g>" ++ Markup.tag "name" ++ "<text>name</text></g></a></svg>") = true.
Proof. split; [reflexivity | split; [now left | reflexivity]]. Qed.

(** ** Fuel of the loop of [Replace] for an empty [old] *)

Module RuneLoop.
Import Go.

Lemma length_drop_rune (c : ascii) (s : string) :
  String.length (drop (utf8.DecodeRuneSize (String c s)) (String c s)) <=
  String.length s.
Proof.
  pose proof (Rune.DecodeRuneSize_pos c s) as H.
  destruct (utf8.DecodeRuneSize (String c s)) as [|k]; [lia|].
  cbn [drop]. apply MarkupFacts.length_drop.
Qed.

(** Fuel beyond the length of the text changes nothing. *)
Lemma runeLoop_fuel (new : string) :
  forall f1 f2 s n,
    String.length s <= f1 -> String.length s <= f2 ->
    runeLoop f1 s new n = runeLoop f2 s new n.
Proof.
  induction f1 as [|f1 IH]; intros f2 s n H1 H2.
  - destruct s; [|simpl in H1; lia]. destruct f2; simpl; [reflexivity|].
    now destruct (spent n).
  - destruct f2 as [|f2].
    + destruct s; [|simpl in H2; lia]. simpl. now destruct (spent n).
    + cbn [runeLoop]. destruct (spent n); [reflexivity|].
      destruct s as [|c s]; [reflexivity|].
      pose proof (length_drop_rune c s). simpl in H1, H2.
      do 2 f_equal. apply IH; lia.
Qed.

End RuneLoop.

(** * Further properties of main.go *)

(** ** Runs of the command *)

Module Runs.

Lemma no_writes (tr : list event) :
  (forall path data, ~ In (FileWrite path data) tr) -> writes tr = [].
Proof.
  induction tr as [|e tr IH]; intros H; [reflexivity|].
  destruct e; cbn [writes];
    try (apply IH; intros p d Hin; apply (H p d); now right).
  exfalso. apply (H path data). now left.
Qed.

Lemma writes_Permutation (l l' : list event) :
  Permutation l l' -> Permutation (writes l) (writes l').
Proof.
  induction 1 as [|e l l' HP IH|e1 e2 l|l l' l'' HP1 IH1 HP2 IH2].
  - constructor.
  - destruct e; cbn [writes]; try exact IH. now constructor.
  - destruct e1, e2; cbn [writes]; try apply Permutation_refl. constructor.
  - eapply Permutation_trans; eauto.
Qed.

(** The events of a run are, each as often as it occurs, events of the
    goroutines. *)
Lemma exec_part (ws : list (list event)) (tr : list event) :
  exec ws tr -> exists rest, Permutation (concat ws) (tr ++ rest).
Proof.
  induction 1 as [ws H|ws1 e0 w ws2 tr He0 Hex IH|ws1 e0 w ws2 He0].
  - exists []. induction H as [|w ws Hw HF IH]; [constructor|].
    subst w. exact IH.
  - destruct IH as [rest IH]. exists rest.
    rewrite concat_app in *. cbn [concat app] in *.
    apply Permutation_sym. eapply Permutation_trans.
    + apply Permutation_cons; [reflexivity | apply Permutation_sym, IH].
    + apply Permutation_middle.
  - exists (concat (ws1 ++ w :: ws2)).
    rewrite !concat_app. cbn [concat app].
    apply Permutation_sym, Permutation_middle.
Qed.

Lemma writes_concat_le (ws : list (list event)) :
  Forall (fun w => List.length (writes w) <= 1) ws ->
  List.length (writes (concat ws)) <= List.length ws.
Proof.
  induction 1 as [|w ws Hw HF IH]; [simpl; lia|].
  cbn [concat]. rewrite Trace.writes_app, length_app. simpl. lia.
Qed.

Section Workers.

Variable X : Extract.
Variable R : Runtime.
Variables (baseDir filter : string) (printBNF : bool).

(** The overview worker writes its one file as its last act, or no
    file. *)
Lemma overview_writes bnf :
  let p := stmtBlockWorker X R baseDir filter printBNF bnf in
  writes (fst p) = [] \/
  (skipped filter "stmt_block" = false /\ printBNF = false /\
   exists g rr body,
     snd (runParse X bnf [] "stmt_block" true true [] []) = Some (g, None) /\
     snd (runRR X "stmt_block" g) = Some (rr, None) /\
     InnerTag X rr "body" = (body, None) /\
     writes (fst p) =
       [(filepath_Join R baseDir "grammar.html",
         "<div>" ++ (Go.SplitN2_0 body "<hr/>" ++ generatedBy) ++ "</div>")]).
Proof.
  cbv zeta. unfold stmtBlockWorker. fold (skipped filter "stmt_block").
  destruct (skipped filter "stmt_block"); [now left|].
  rewrite Trace.writes_bind, Trace.runParse_writes. cbn [app].
  destruct (snd (runParse X bnf [] "stmt_block" true true [] []))
    as [[g [e|]]|] eqn:EP; [now left| |now left].
  destruct printBNF; [now left|].
  rewrite Trace.writes_bind, Trace.runRR_writes. cbn [app].
  destruct (snd (runRR X "stmt_block" g)) as [[rr [e|]]|] eqn:ER;
    [now left| |now left].
  destruct (InnerTag X rr "body") as [body [e|]] eqn:EI; [now left|].
  rewrite Trace.writes_bind, Trace.WriteFile_writes.
  destruct (snd (ioutil_WriteFile_proc R _ _)) as [[e|]|];
    [now left | | now left].
  right. repeat split. exists g, rr, body. repeat split; assumption.
Qed.

Lemma specWorker_one_write bnf s lits regs :
  List.length (writes (fst (specWorker X R baseDir filter printBNF bnf s lits regs))) <= 1.
Proof.
  destruct (specWorker_writes X R baseDir filter printBNF bnf s lits regs)
    as [[H _] | (d & H & _)]; rewrite H; simpl; lia.
Qed.

Lemma overview_one_write bnf :
  List.length (writes (fst (stmtBlockWorker X R baseDir filter printBNF bnf))) <= 1.
Proof.
  destruct (overview_writes bnf) as [H | (_ & _ & g & rr & body & _ & _ & _ & H)];
    rewrite H; simpl; lia.
Qed.

End Workers.

Lemma turns_specRun X R baseDir filter printBNF bnf specs :
  Forall2 (specRun X R baseDir filter printBNF bnf) specs
    (map (fun s => specWorker X R baseDir filter printBNF bnf s
                     (replace s) (regreplace s)) specs).
Proof.
  induction specs as [|s specs IH]; constructor; [|exact IH].
  exists (replace s), (regreplace s). repeat split; apply Permutation_refl.
Qed.

(** The goroutines may take turns. *)
Lemma Run_turns X R addr baseDir filter printBNF specs :
  Run X R addr baseDir filter printBNF specs
    (turns X R addr baseDir filter printBNF specs).
Proof.
  unfold turns. destruct (GenerateBNF X addr) as [bnf [e|]] eqn:E.
  - apply (Run_no_grammar X R addr baseDir filter printBNF specs
             [Log ("generate BNF: " ++ addr)] bnf e).
    rewrite Schedule.runBNF_eq. now rewrite E.
  - apply (Run_workers X R addr baseDir filter printBNF specs
             [Log ("generate BNF: " ++ addr)] bnf
             (fst (stmtBlockWorker X R baseDir filter printBNF bnf) ::
              map (fun s => fst (specWorker X R baseDir filter printBNF bnf s
                                   (replace s) (regreplace s))) specs)).
    + rewrite Schedule.runBNF_eq. now rewrite E.
    + eexists. split; [apply turns_specRun|]. now rewrite map_map.
    + apply Schedule.exec_in_turn.
Qed.

End Runs.

(** ** Instances of a separator *)

Module Occurs.

(** [strings.Cut] stops at the first instance: none lies before it. *)
Lemma Cut_first (x : ascii) (sep' : string) :
  forall s b a,
    Go.Cut s (String x sep') = Some (b, a) ->
    Go.Contains b (String x sep') = false.
Proof.
  induction s as [|c s IH]; intros b a H; rewrite GoFacts.Cut_unfold in H.
  - destruct (Go.CutPrefix EmptyString (String x sep')); [|discriminate].
    now inversion H.
  - destruct (Go.CutPrefix (String c s) (String x sep')) as [r|] eqn:E.
    + now inversion H.
    + destruct (Go.Cut s (String x sep')) as [[b' a']|] eqn:EC; [|discriminate].
      inversion H; subst b a'; clear H.
      rewrite GoFacts.Contains_unfold, (IH _ _ eq_refl), orb_false_r.
      unfold Go.HasPrefix.
      destruct (Go.CutPrefix (String c b') (String x sep')) as [r|] eqn:EP;
        [|reflexivity].
      apply GoFacts.CutPrefix_sound in EP.
      apply GoFacts.Cut_sound in EC.
      assert (Hs : String c s = String x sep' ++ (r ++ String x sep' ++ a)).
      { rewrite <- Str.app_assoc, <- EP. cbn [append]. now rewrite EC. }
      rewrite Hs, GoFacts.CutPrefix_app in E. discriminate.
Qed.

Lemma Contains_Cut (s sep : string) :
  Go.Contains s sep = false -> Go.Cut s sep = None.
Proof. unfold Go.Contains. now destruct (Go.Cut s sep). Qed.

(** With no instance of [old] in [s], [Replace] returns [s]. *)
Lemma Replace_absent (s : string) (x : ascii) (old' new : string) (n : Z) :
  Go.Contains s (String x old') = false ->
  Go.Replace s (String x old') new n = s.
Proof.
  intros H. apply Contains_Cut in H. unfold Go.Replace. cbv zeta.
  destruct (String.length s) as [|f]; cbn [Go.replaceLoop]; [reflexivity|].
  rewrite H. now destruct (Go.spent (Go.budget_of n)).
Qed.

End Occurs.

(** ** Files of a run *)

Module Files.






Lemma goroutines_length X R baseDir filter printBNF bnf specs ws :
  goroutines X R baseDir filter printBNF bnf specs ws ->
  List.length ws = S (List.length specs) /\
  Forall (fun w => List.length (writes w) <= 1) ws.
Proof.
  intros (ps & HF & ->). split.
  - cbn [List.length]. rewrite length_map. f_equal.
    induction HF; simpl; congruence.
  - constructor; [apply Runs.overview_one_write|].
    induction HF as [|s p specs ps (lits & regs & _ & _ & ->) HF IH];
      cbn [map]; constructor; [apply Runs.specWorker_one_write | exact IH].
Qed.

End Files.

(** X1: the overview worker writes no file but grammar.html in the base
    directory, and what it writes there is the body of the rendering of the
    stmt_block production up to its first [<hr/>] (all of it when it has
    none), followed by the credit line, inside one [div]. *)
Theorem overview_file X R baseDir filter printBNF bnf path data :
  In (path, data) (writes (fst (stmtBlockWorker X R baseDir filter printBNF bnf))) ->
  path = filepath_Join R baseDir "grammar.html" /\
  exists g rr body pre,
    snd (runParse X bnf [] "stmt_block" true true [] []) = Some (g, None) /\
    snd (runRR X "stmt_block" g) = Some (rr, None) /\
    InnerTag X rr "body" = (body, None) /\
    (body = pre \/ exists rest, body = pre ++ "<hr/>" ++ rest) /\
    Go.Contains pre "<hr/>" = false /\
    data = "<div>" ++ pre ++ generatedBy ++ "</div>".
Proof.
  intros Hin.
  destruct (Runs.overview_writes X R baseDir filter printBNF bnf)
    as [H | (_ & _ & g & rr & body & Hg & Hrr & Hb & H)];
    rewrite H in Hin; [destruct Hin|].
  destruct Hin as [Hin|[]]. inversion Hin; subst path data; clear Hin.
  split; [reflexivity|].
  exists g, rr, body, (Go.SplitN2_0 body "<hr/>").
  repeat split; try assumption.
  - unfold Go.SplitN2_0.
    destruct (Go.Cut body "<hr/>") as [[b a]|] eqn:EC; [|now left].
    right. exists a. now apply GoFacts.Cut_sound.
  - unfold Go.SplitN2_0.
    destruct (Go.Cut body "<hr/>") as [[b a]|] eqn:EC.
    + exact (Occurs.Cut_first _ _ _ _ _ EC).
    + unfold Go.Contains. now rewrite EC.
  - now rewrite Str.app_assoc.
Qed.

Lemma overview_file_witness :
  In ("out/grammar.html", "<div>" ++ "<p>a</p>" ++ generatedBy ++ "</div>")
    (writes (fst (stmtBlockWorker (Sample.rendering "<p>a</p><hr/><p>b</p>")
                    Sample.runtime "out" EmptyString false Sample.grammar))) /\
  "out/grammar.html" = filepath_Join Sample.runtime "out" "grammar.html".
Proof.
  assert (H : In ("out/grammar.html", "<div>" ++ "<p>a</p>" ++ generatedBy ++ "</div>")
                (writes (fst (stmtBlockWorker (Sample.rendering "<p>a</p><hr/><p>b</p>")
                                Sample.runtime "out" EmptyString false Sample.grammar))))
    by (vm_compute; left; reflexivity).
  split; [exact H|].
  exact (proj1 (overview_file _ _ _ _ _ _ _ _ H)).
Defined.

(** X2: with the bnf flag set, no run of the command writes a file. *)
Theorem print_mode_writes_no_file X R addr baseDir filter specs tr :
  Run X R addr baseDir filter true specs tr -> writes tr = [].
Proof.
  intros HR.
  destruct HR as [t0 bnf e Hb | t0 bnf ws tr Hb (ps & HF & ->) Hex];
    rewrite Schedule.runBNF_eq in Hb; inversion Hb as [[Ht Hg]]; subst t0; clear Hb;
    [reflexivity|].
  cbn [app writes]. apply Runs.no_writes. intros path data Hin.
  destruct (Exec.sound _ _ Hex _ Hin) as (w & [<-|Hw] & He).
  - apply Exec.In_writes in He.
    destruct (Runs.overview_writes X R baseDir filter true bnf)
      as [H | (_ & H & _)]; [|discriminate].
    rewrite H in He. destruct He.
  - apply in_map_iff in Hw as (p & <- & Hp).
    destruct (Schedule.Forall2_In_r _ _ _ _ HF Hp) as (s & Hs & (lits & regs & _ & _ & ->)).
    apply Exec.In_writes in He.
    destruct (specWorker_writes X R baseDir filter true bnf s lits regs)
      as [[H _] | (d & _ & _ & _ & H)]; [|discriminate].
    rewrite H in He. destruct He.
Qed.

Lemma print_mode_writes_no_file_witness :
  Run Sample.extract Sample.runtime "sql.y" "out" EmptyString true
    [Sample.spec "drop" "drop_stmt"]
    (turns Sample.extract Sample.runtime "sql.y" "out" EmptyString true
       [Sample.spec "drop" "drop_stmt"]) /\
  writes (turns Sample.extract Sample.runtime "sql.y" "out" EmptyString true
            [Sample.spec "drop" "drop_stmt"]) = [].
Proof.
  split; [apply Runs.Run_turns|].
  apply (print_mode_writes_no_file Sample.extract Sample.runtime "sql.y" "out"
           EmptyString [Sample.spec "drop" "drop_stmt"]).
  apply Runs.Run_turns.
Defined.

(** X3: with a non-empty filter, every file a run writes is the file of a
    statement whose name is the filter, or grammar.html when the filter is
    stmt_block; a filter that names nothing writes nothing. *)
Theorem filter_confines_files X R addr baseDir filter printBNF specs tr path data :
  (filter =? EmptyString) = false ->
  Run X R addr baseDir filter printBNF specs tr ->
  In (path, data) (writes tr) ->
  (filter = "stmt_block" /\ path = filepath_Join R baseDir "grammar.html") \/
  (exists s, In s specs /\ name s = filter /\ path = outPath R baseDir s).
Proof.
  intros Hf HR Hin.
  destruct HR as [t0 bnf e Hb | t0 bnf ws tr Hb (ps & HF & ->) Hex];
    rewrite Schedule.runBNF_eq in Hb; inversion Hb as [[Ht Hg]]; subst t0; clear Hb;
    [destruct Hin|].
  cbn [app writes] in Hin. apply Exec.In_writes in Hin.
  destruct (Exec.sound _ _ Hex _ Hin) as (w & [<-|Hw] & He); apply Exec.In_writes in He.
  - left.
    destruct (Runs.overview_writes X R baseDir filter printBNF bnf)
      as [H | (Hs & _ & g & rr & body & _ & _ & _ & H)];
      rewrite H in He; [destruct He|].
    destruct He as [He|[]]. inversion He; subst path data.
    unfold skipped in Hs. rewrite Hf in Hs. cbn [negb andb] in Hs.
    apply negb_false_iff, String.eqb_eq in Hs. now split.
  - right. apply in_map_iff in Hw as (p & <- & Hp).
    destruct (Schedule.Forall2_In_r _ _ _ _ HF Hp) as (s & Hs & (lits & regs & _ & _ & ->)).
    destruct (specWorker_writes X R baseDir filter printBNF bnf s lits regs)
      as [[H _] | (d & H & _ & Hk & _)]; rewrite H in He; [destruct He|].
    destruct He as [He|[]]. inversion He; subst path data.
    unfold skipped in Hk. rewrite Hf in Hk. cbn [negb andb] in Hk.
    apply negb_false_iff, String.eqb_eq in Hk.
    exists s. now repeat split.
Qed.

Lemma filter_confines_files_witness :
  In ("out/drop.html", "<svg>'DROP' 'TABLE' identifier</svg>")
    (writes (turns Sample.extract Sample.runtime "sql.y" "out" "drop_stmt" false
               [Sample.spec "drop_stmt" EmptyString;
                Sample.spec "show_stmt" EmptyString])) /\
  (("drop_stmt" = "stmt_block" /\
    "out/drop.html" = filepath_Join Sample.runtime "out" "grammar.html") \/
   (exists s,
      In s [Sample.spec "drop_stmt" EmptyString; Sample.spec "show_stmt" EmptyString] /\
      name s = "drop_stmt" /\ "out/drop.html" = outPath Sample.runtime "out" s)).
Proof.
  assert (H : In ("out/drop.html", "<svg>'DROP' 'TABLE' identifier</svg>")
                (writes (turns Sample.extract Sample.runtime "sql.y" "out" "drop_stmt"
                           false
                           [Sample.spec "drop_stmt" EmptyString;
                            Sample.spec "show_stmt" EmptyString])))
    by (vm_compute; left; reflexivity).
  split; [exact H|].
  apply (filter_confines_files Sample.extract Sample.runtime "sql.y" "out" "drop_stmt"
           false _ _ _ _ eq_refl (Runs.Run_turns _ _ _ _ _ _ _) H).
Defined.

(** X4: a run writes at most one file per statement and one for the
    overview. *)
Theorem one_file_per_statement X R addr baseDir filter printBNF specs tr :
  Run X R addr baseDir filter printBNF specs tr ->
  List.length (writes tr) <= S (List.length specs).
Proof.
  intros HR.
  destruct HR as [t0 bnf e Hb | t0 bnf ws tr Hb Hgo Hex];
    rewrite Schedule.runBNF_eq in Hb; inversion Hb as [[Ht Hg]]; subst t0; clear Hb;
    [simpl; lia|].
  cbn [app writes].
  destruct (Files.goroutines_length _ _ _ _ _ _ _ _ Hgo) as [Hl Hone].
  destruct (Runs.exec_part _ _ Hex) as [rest HP].
  apply Runs.writes_Permutation, Permutation_length in HP.
  rewrite Trace.writes_app, length_app in HP.
  pose proof (Runs.writes_concat_le ws Hone). lia.
Qed.

Lemma one_file_per_statement_witness :
  List.length
    (writes (turns Sample.extract Sample.runtime "sql.y" "out" EmptyString false
               [Sample.spec "drop" "drop_stmt"; Sample.spec "show" "show_stmt"])) <= 3.
Proof.
  apply (one_file_per_statement Sample.extract Sample.runtime "sql.y" "out"
           EmptyString false
           [Sample.spec "drop" "drop_stmt"; Sample.spec "show" "show_stmt"]).
  apply Runs.Run_turns.
Defined.



(** X6: when the grammar cannot be fetched the command logs the address,
    ends the process with the error and starts no worker: that is its only
    run. *)
Theorem no_grammar_no_workers X R addr baseDir filter printBNF specs bnf e tr :
  GenerateBNF X addr = (bnf, Some e) ->
  Run X R addr baseDir filter printBNF specs tr <->
  tr = [Log ("generate BNF: " ++ addr); Exit1 e].
Proof.
  intros HG. split.
  - intros HR.
    destruct HR as [t0 bnf' e' Hb | t0 bnf' ws tr Hb Hgo Hex];
      rewrite Schedule.runBNF_eq, HG in Hb; inversion Hb; subst; reflexivity.
  - intros ->.
    apply (Run_no_grammar X R addr baseDir filter printBNF specs
             [Log ("generate BNF: " ++ addr)] bnf e).
    now rewrite Schedule.runBNF_eq, HG.
Qed.

Lemma no_grammar_no_workers_witness :
  Run Failing.noGrammar Sample.runtime "sql.y" "out" EmptyString false specs
    [Log "generate BNF: sql.y"; Exit1 "404 Not Found"].
Proof.
  apply (no_grammar_no_workers Failing.noGrammar Sample.runtime "sql.y" "out"
           EmptyString false specs EmptyString "404 Not Found"); reflexivity.
Defined.


(** ** The link rewrite (main.go:356) *)

Module Href.
Import Go GoFacts.

Definition hrefs (b : string) : string := Replace b localHref pageHref (-1).

Lemma Contains_cons_other (c x : ascii) (s w : string) :
  Ascii.eqb x c = false ->
  Contains (String c s) (String x w) = Contains s (String x w).
Proof. intros H. now rewrite Contains_unfold, HasPrefix_cons, H. Qed.

(** If the rewritten text starts with a character other than [<], so does
    the text, and no local link starts there. *)
Lemma hrefs_head (b : string) (x : ascii) (rest : string) :
  Ascii.eqb x "<" = false ->
  HasPrefix (hrefs b) (String x rest) = true ->
  exists b', b = String x b' /\ HasPrefix (hrefs b') rest = true.
Proof.
  intros Hx H. unfold hrefs in *.
  destruct (CutPrefix b localHref) as [r|] eqn:E.
  - rewrite (ReplaceAll_hit _ _ _ _ _ E) in H.
    cbn [pageHref append] in H. rewrite HasPrefix_cons, Hx in H. discriminate.
  - destruct b as [|c b]; [discriminate|].
    rewrite (ReplaceAll_miss _ _ _ _ _ E) in H.
    apply Tokens.HasPrefix_true_cons in H as (s' & Hs & Hp).
    inversion Hs; subst. now exists b.
Qed.

Lemma hrefs_no_prefix (b : string) : HasPrefix (hrefs b) localHref = false.
Proof.
  destruct (CutPrefix b localHref) as [r|] eqn:E.
  - unfold hrefs. rewrite (ReplaceAll_hit _ _ _ _ _ E). reflexivity.
  - destruct b as [|c b]; [reflexivity|].
    destruct (HasPrefix (hrefs (String c b)) localHref) eqn:H; [|reflexivity].
    unfold hrefs in H. rewrite (ReplaceAll_miss _ _ _ _ _ E) in H. fold (hrefs b) in H.
    apply Tokens.HasPrefix_true_cons in H as (s' & Hs & H).
    inversion Hs; subst c s'; clear Hs.
    do 15 (apply hrefs_head in H as (? & -> & H); [|reflexivity]).
    discriminate E.
Qed.

(** No local link is left. *)
Lemma hrefs_clean (b : string) : Contains (hrefs b) localHref = false.
Proof.
  induction b as [b IH] using Tokens.string_length_ind.
  destruct (CutPrefix b localHref) as [r|] eqn:E.
  - pose proof (IH r (Tokens.CutPrefix_shorter _ _ _ _ E)) as Hr.
    assert (HA : localHref =
                 ltac:(let v := eval vm_compute in localHref in exact v))
      by reflexivity.
    assert (HB : pageHref =
                 ltac:(let v := eval vm_compute in pageHref in exact v))
      by reflexivity.
    unfold hrefs. rewrite (ReplaceAll_hit _ _ _ _ _ E).
    change (Contains (pageHref ++ hrefs r) localHref = false).
    rewrite HB, HA. cbn [append].
    rewrite (Contains_unfold (String _ _)).
    replace (HasPrefix _ _) with false by reflexivity. cbn [orb].
    repeat (rewrite Contains_cons_other by reflexivity).
    rewrite <- HA. exact Hr.
  - destruct b as [|c b]; [reflexivity|].
    rewrite Contains_unfold, hrefs_no_prefix. cbn [orb].
    unfold hrefs. rewrite (ReplaceAll_miss _ _ _ _ _ E). fold (hrefs b).
    apply IH. simpl. lia.
Qed.

End Href.

(** ** The unlink loop without links to remove *)

Module Unlink.
Import Go GoFacts.

Lemma no_match (u : string) :
  forall s, Link.MatchString u s = false -> Link.ReplaceAllString1 u s = s.
Proof.
  induction s as [|c s IH]; intros H; [reflexivity|].
  cbn [Link.MatchString] in H.
  destruct (Link.matchAt u (String c s)) as [m|] eqn:E; [discriminate|].
  rewrite (MarkupFacts.ReplaceAllString1_miss _ _ _ E). f_equal. now apply IH.
Qed.

(** A match is longer than what it captures. *)
Lemma matchAt_length (u s inner rest : string) :
  Link.matchAt u s = Some (inner, rest) ->
  String.length inner + String.length rest < String.length s.
Proof.
  unfold Link.matchAt, Link.open.
  destruct (CutPrefix s Link.lit1) as [r1|] eqn:E1; [|discriminate].
  destruct MarkupFacts.lit1_cons as [l1 Hl]. rewrite Hl in E1.
  pose proof (Tokens.CutPrefix_shorter _ _ _ _ E1) as H1.
  destruct (Link.dot r1) as [r2|] eqn:E2; [|discriminate].
  assert (H2 : String.length r2 <= String.length r1).
  { unfold Link.dot in E2. destruct r1 as [|c r1]; [discriminate|].
    destruct (Ascii.eqb c "010"); [discriminate|].
    inversion E2. apply MarkupFacts.length_drop. }
  destruct (CutPrefix r2 (Link.lit2 u)) as [r|] eqn:E3; [|discriminate].
  assert (H3 : String.length r <= String.length r2).
  { apply CutPrefix_sound in E3. subst r2. rewrite Str.length_app. lia. }
  intros H. apply Cut_sound in H. subst r.
  rewrite !Str.length_app in H3. lia.
Qed.

Lemma pass_length (u : string) (s : string) :
  String.length (Link.ReplaceAllString1 u s) <= String.length s.
Proof.
  induction s as [s IH] using Tokens.string_length_ind.
  destruct (Link.matchAt u s) as [[inner rest]|] eqn:E.
  - rewrite (MarkupFacts.ReplaceAllString1_hit _ _ _ _ E), Str.length_app.
    pose proof (matchAt_length _ _ _ _ E) as Hl.
    assert (Hr : String.length rest < String.length s) by lia.
    specialize (IH rest Hr). lia.
  - destruct s as [|c s]; [simpl; lia|].
    rewrite (MarkupFacts.ReplaceAllString1_miss _ _ _ E).
    cbn [String.length]. specialize (IH s). simpl in IH. lia.
Qed.

End Unlink.

(** X8: the link rewrite of the statement worker leaves no link to a local
    anchor in the markup: the text it inserts neither holds nor completes
    another instance of the text it replaces; applying it a second time
    changes nothing. *)
Theorem href_rewrite_is_complete (body : string) :
  Go.Contains (Go.Replace body localHref pageHref (-1)) localHref = false /\
  Go.Replace (Go.Replace body localHref pageHref (-1)) localHref pageHref (-1) =
  Go.Replace body localHref pageHref (-1).
Proof.
  pose proof (Href.hrefs_clean body) as H. unfold Href.hrefs in H.
  split; [exact H|].
  now apply Occurs.Replace_absent.
Qed.

(** X9: the two token rewrites of runParse settle: when every _LA left by
    the first rewrite ends the text or is followed by a character other
    than A, D, E, L, N, T, rewriting the returned bytes again returns them
    unchanged. *)
Theorem token_rewrites_settle (b : string) :
  markersClosed (Go.Replace b "IDENT" "identifier" (-1)) = true ->
  Go.Replace
    (Go.Replace
       (Go.Replace (Go.Replace b "IDENT" "identifier" (-1)) "_LA" EmptyString (-1))
       "IDENT" "identifier" (-1))
    "_LA" EmptyString (-1) =
  Go.Replace (Go.Replace b "IDENT" "identifier" (-1)) "_LA" EmptyString (-1).
Proof.
  intros Hm.
  destruct (Tokens.del_clean _ Hm (Tokens.ins_clean b)) as [H1 H2].
  unfold Tokens.del, Tokens.ins in H1, H2.
  rewrite (Occurs.Replace_absent _ _ _ _ _ H1).
  now apply Occurs.Replace_absent.
Qed.

Lemma token_rewrites_settle_witness :
  Go.Replace
    (Go.Replace
       (Go.Replace (Go.Replace "'SHOW' 'NOT_LA' IDENT" "IDENT" "identifier" (-1))
          "_LA" EmptyString (-1))
       "IDENT" "identifier" (-1))
    "_LA" EmptyString (-1) = "'SHOW' 'NOT' identifier".
Proof.
  exact (token_rewrites_settle "'SHOW' 'NOT_LA' IDENT" eq_refl).
Defined.

(** X10: the loop over a statement's replace map leaves the fragment as it
    is when no key of the map is empty or occurs in it, whatever the order
    of iteration; no replace map of main.go has an empty key. *)
Theorem absent_keys_change_nothing (order : list (string * string)) (g : string) :
  forallb (fun ft => negb (fst ft =? EmptyString) && negb (Go.Contains g (fst ft)))
    order = true ->
  replaceAllLiteral order g = g /\
  forallb (fun s => forallb (fun ft => negb (fst ft =? EmptyString)) (replace s))
    specs = true.
Proof.
  intros H. split; [|reflexivity]. revert H.
  unfold replaceAllLiteral.
  induction order as [|[from to] order IH]; intros H; [reflexivity|].
  cbn [forallb fst] in H. apply andb_prop in H as [H1 H2].
  apply andb_prop in H1 as [Hne Hc].
  destruct from as [|x from']; [discriminate|].
  apply negb_true_iff in Hc.
  cbn [fold_left fst snd]. rewrite (Occurs.Replace_absent _ _ _ _ _ Hc).
  now apply IH.
Qed.

Lemma absent_keys_change_nothing_witness :
  replaceAllLiteral Sample.truncateOrder "drop_stmt ::= 'DROP' 'TABLE' IDENT" =
  "drop_stmt ::= 'DROP' 'TABLE' IDENT".
Proof.
  exact (proj1 (absent_keys_change_nothing Sample.truncateOrder
                  "drop_stmt ::= 'DROP' 'TABLE' IDENT" eq_refl)).
Defined.

(** X11: the loop over a statement's unlink names, all made of letters,
    digits and underscores, returns the markup as it is when none of the
    names has a link in it, and compiles no pattern that could fail. *)
Theorem unlink_without_links (R : Runtime) (us : list string) (body : string) :
  forallb Link.plain us = true ->
  forallb (fun u => negb (Link.MatchString u body)) us = true ->
  unlinkAll R us body = ret body.
Proof.
  induction us as [|u us IH]; intros Hp Hm; [reflexivity|].
  cbn [forallb] in Hp, Hm.
  apply andb_prop in Hp as [Hu Hp]. apply andb_prop in Hm as [Hb Hm].
  apply negb_true_iff in Hb.
  cbn [unlinkAll]. unfold unlinkOne. rewrite Hu, bind_ret_l.
  rewrite (Unlink.no_match _ _ Hb). now apply IH.
Qed.

Lemma unlink_without_links_witness :
  unlinkAll Sample.runtime ["name"; "opt_with"]
    ("<svg>" ++ Sample.link "encoding" "<text>encoding</text>" ++ "</svg>") =
  ret ("<svg>" ++ Sample.link "encoding" "<text>encoding</text>" ++ "</svg>").
Proof.
  exact (unlink_without_links Sample.runtime ["name"; "opt_with"]
           ("<svg>" ++ Sample.link "encoding" "<text>encoding</text>" ++ "</svg>")
           eq_refl eq_refl).
Defined.

(** X12: the loop over unlink names made of letters, digits and underscores
    always returns, emits nothing, and never makes the markup longer: it
    only removes tags.  Every unlink name of main.go is made of such
    characters. *)
Theorem unlink_never_lengthens (R : Runtime) (us : list string) (body : string) :
  forallb Link.plain us = true ->
  (exists body',
     unlinkAll R us body = ret body' /\
     String.length body' <= String.length body) /\
  forallb (fun s => forallb Link.plain (unlink s)) specs = true.
Proof.
  intros Hp. split; [|reflexivity].
  revert body Hp. induction us as [|u us IH]; intros body Hp.
  - exists body. now split.
  - cbn [forallb] in Hp. apply andb_prop in Hp as [Hu Hp].
    cbn [unlinkAll]. unfold unlinkOne. rewrite Hu, bind_ret_l.
    destruct (IH (Link.ReplaceAllString1 u body) Hp) as (body' & He & Hl).
    exists body'. split; [exact He|].
    pose proof (Unlink.pass_length u body). lia.
Qed.

Lemma unlink_never_lengthens_witness :
  exists body',
    unlinkAll Sample.runtime ["name"; "opt_with"]
      (Go.Replace Sample.databaseSvg localHref pageHref (-1)) = ret body' /\
    String.length body' <=
    String.length (Go.Replace Sample.databaseSvg localHref pageHref (-1)).
Proof.
  exact (proj1 (unlink_never_lengthens Sample.runtime ["name"; "opt_with"]
                  (Go.Replace Sample.databaseSvg localHref pageHref (-1)) eq_refl)).
Defined.

(** ** The stages of a statement worker *)

Module Stages.

Lemma bind_val {A B} (t : list event) (a : A) (k : A -> Proc B) :
  bind (t, Some a) k = ((t ++ fst (k a))%list, snd (k a)).
Proof. unfold bind. now destruct (k a). Qed.

(** A worker the filter lets through, with the statement it parses named. *)
Lemma specWorker_steps X R baseDir filter printBNF bnf s lits regs :
  skipped filter (name s) = false ->
  specWorker X R baseDir filter printBNF bnf s lits regs =
  ('(g, err) <- runParse X bnf (inline s)
                  (if stmt s =? EmptyString then name s else stmt s)
                  false (nosplit s) (match_ s) (exclude s) ;;
   match err with
   | Some e => log_Fatal (name s ++ ": " ++ e ++ NL ++ g)
   | None =>
     (if printBNF
      then fmt_Printf (name s ++ ": (PRE REPLACE)" ++ NL ++ NL ++ g ++ NL)
      else ret tt) ;;;
     g <- replaceAllRegexp R regs (replaceAllLiteral lits g) ;;
     if printBNF
     then fmt_Printf (name s ++ ": (POST REPLACE)" ++ NL ++ NL ++ g ++ NL)
     else
       '(rr, err) <- runRR X (name s) g ;;
       match err with
       | Some e => log_Fatal (name s ++ ": " ++ e ++ NL ++ g)
       | None =>
         let (body, err) := ExtractTag X rr "svg" in
         match err with
         | Some e => log_Fatal (name s ++ e)
         | None =>
           body <- unlinkAll R (unlink s) (Go.Replace body localHref pageHref (-1)) ;;
           err <- ioutil_WriteFile_proc R (outPath R baseDir s) body ;;
           match err with
           | Some e => log_Fatal (name s ++ e)
           | None => ret tt
           end
         end
       end
   end).
Proof.
  intros Hs. unfold specWorker. fold (skipped filter (name s)). rewrite Hs.
  destruct (stmt s =? EmptyString); reflexivity.
Qed.

(** The loop over [s.regreplace] returns only when every pattern
    compiles, and then emits nothing. *)
Lemma replaceAllRegexp_returns R order :
  forall g g2,
    snd (replaceAllRegexp R order g) = Some g2 ->
    replaceAllRegexp R order g = ([], Some g2).
Proof.
  induction order as [|[from to] rest IH]; intros g g2 H.
  - cbn in *. now inversion H.
  - cbn [replaceAllRegexp] in *. unfold regexp_MustCompile in *.
    destruct (regexp_Compile R from); [|discriminate].
    rewrite bind_ret_l in *. now apply IH.
Qed.



End Stages.

(** X13: when rendering fails (in the renderer or in the conversion of its
    answer), the statement worker ends the process with its name, the
    error and the fragment as it is after the replacements, and writes no
    file. *)
Theorem renderer_failure_message X R baseDir filter bnf s lits regs g g2 rr e :
  skipped filter (name s) = false ->
  snd (runParse X bnf (inline s)
         (if stmt s =? EmptyString then name s else stmt s)
         false (nosplit s) (match_ s) (exclude s)) = Some (g, None) ->
  snd (replaceAllRegexp R regs (replaceAllLiteral lits g)) = Some g2 ->
  snd (runRR X (name s) g2) = Some (rr, Some e) ->
  specWorker X R baseDir filter false bnf s lits regs =
    ((Log ("parse: " ++ (if stmt s =? EmptyString then name s else stmt s) ++
           ", inline: " ++ fmtStrings (inline s) ++ ", descend: false") ::
      fst (runRR X (name s) g2) ++
      [Exit1 (name s ++ ": " ++ e ++ NL ++ g2)])%list, None).
Proof.
  intros Hs Hg Hg2 Hrr.
  rewrite (Stages.specWorker_steps _ _ _ _ _ _ _ _ _ Hs).
  rewrite (runParse_returns _ _ _ _ _ _ _ _ _ Hg), Stages.bind_val.
  rewrite bind_ret_l.
  rewrite (Stages.replaceAllRegexp_returns _ _ _ _ Hg2), Stages.bind_val.
  rewrite Trace.bind_eq, Hrr. reflexivity.
Qed.

Lemma renderer_failure_message_witness :
  specWorker Failing.noRenderer Sample.runtime "out" EmptyString false Sample.grammar
    (Sample.spec "drop" "drop_stmt") [] [] =
  ([Log "parse: drop_stmt, inline: [], descend: false";
    Exit1 ("drop: connection refused" ++ NL ++ "'DROP' 'TABLE' identifier")], None).
Proof.
  exact (renderer_failure_message Failing.noRenderer Sample.runtime "out" EmptyString
           Sample.grammar (Sample.spec "drop" "drop_stmt") [] []
           "'DROP' 'TABLE' identifier" "'DROP' 'TABLE' identifier"
           EmptyString "connection refused" eq_refl eq_refl eq_refl eq_refl).
Defined.



(** X15: with the bnf flag set, a statement worker whose fragment is
    extracted and whose patterns compile prints the fragment twice, as
    extracted and as it is after the replacements, and returns without
    calling the renderer. *)
Theorem print_mode_prints_both X R baseDir filter bnf s lits regs g g2 :
  skipped filter (name s) = false ->
  snd (runParse X bnf (inline s)
         (if stmt s =? EmptyString then name s else stmt s)
         false (nosplit s) (match_ s) (exclude s)) = Some (g, None) ->
  snd (replaceAllRegexp R regs (replaceAllLiteral lits g)) = Some g2 ->
  specWorker X R baseDir filter true bnf s lits regs =
    ([Log ("parse: " ++ (if stmt s =? EmptyString then name s else stmt s) ++
           ", inline: " ++ fmtStrings (inline s) ++ ", descend: false");
      Stdout (name s ++ ": (PRE REPLACE)" ++ NL ++ NL ++ g ++ NL);
      Stdout (name s ++ ": (POST REPLACE)" ++ NL ++ NL ++ g2 ++ NL)], Some tt).
Proof.
  intros Hs Hg Hg2.
  rewrite (Stages.specWorker_steps _ _ _ _ _ _ _ _ _ Hs).
  rewrite (runParse_returns _ _ _ _ _ _ _ _ _ Hg), Stages.bind_val.
  unfold fmt_Printf, emit. rewrite Stages.bind_val.
  rewrite (Stages.replaceAllRegexp_returns _ _ _ _ Hg2), Stages.bind_val.
  reflexivity.
Qed.

Lemma print_mode_prints_both_witness :
  specWorker Sample.extract Sample.runtime "out" EmptyString true Sample.truncateGrammar
    (Sample.the "truncate_stmt")
    (replace (Sample.the "truncate_stmt")) (regreplace (Sample.the "truncate_stmt")) =
  ([Log ("parse: truncate_stmt, inline: [opt_table relation_expr_list " ++
         "relation_expr opt_drop_behavior], descend: false");
    Stdout ("truncate_stmt: (PRE REPLACE)" ++ NL ++ NL ++
            "'TRUNCATE' 'TABLE' 'ONLY' qualified_name" ++ NL);
    Stdout ("truncate_stmt: (POST REPLACE)" ++ NL ++ NL ++
            "'TRUNCATE' 'TABLE' " ++ NL)], Some tt).
Proof.
  exact (print_mode_prints_both Sample.extract Sample.runtime "out" EmptyString
           Sample.truncateGrammar (Sample.the "truncate_stmt")
           (replace (Sample.the "truncate_stmt")) (regreplace (Sample.the "truncate_stmt"))
           "'TRUNCATE' 'TABLE' 'ONLY' qualified_name" "'TRUNCATE' 'TABLE' "
           eq_refl eq_refl eq_refl).
Defined.

(** X16: a statement worker whose rendering has no svg element, or whose
    file cannot be written, ends the process with its name immediately
    followed by the error, with no separator between them, and writes no
    file. *)
Theorem late_failure_messages X R baseDir filter bnf s lits regs g g2 rr svg err :
  skipped filter (name s) = false ->
  snd (runParse X bnf (inline s)
         (if stmt s =? EmptyString then name s else stmt s)
         false (nosplit s) (match_ s) (exclude s)) = Some (g, None) ->
  snd (replaceAllRegexp R regs (replaceAllLiteral lits g)) = Some g2 ->
  snd (runRR X (name s) g2) = Some (rr, None) ->
  ExtractTag X rr "svg" = (svg, err) ->
  let line := Log ("parse: " ++ (if stmt s =? EmptyString then name s else stmt s) ++
                   ", inline: " ++ fmtStrings (inline s) ++ ", descend: false") in
  let w := specWorker X R baseDir filter false bnf s lits regs in
  (forall e, err = Some e ->
     w = ((line :: fst (runRR X (name s) g2) ++ [Exit1 (name s ++ e)])%list, None)) /\
  (forall t body e,
     err = None ->
     unlinkAll R (unlink s) (Go.Replace svg localHref pageHref (-1)) = (t, Some body) ->
     ioutil_WriteFile R (outPath R baseDir s) body = Some e ->
     w = ((line :: fst (runRR X (name s) g2) ++ t ++ [Exit1 (name s ++ e)])%list, None) /\
     writes (fst w) = []).
Proof.
  intros Hs Hg Hg2 Hrr Hsvg line w.
  assert (Hw : w =
    ((line :: fst (runRR X (name s) g2) ++
      fst (match err with
           | Some e => log_Fatal (name s ++ e)
           | None =>
             body <- unlinkAll R (unlink s) (Go.Replace svg localHref pageHref (-1)) ;;
             err <- ioutil_WriteFile_proc R (outPath R baseDir s) body ;;
             match err with
             | Some e => log_Fatal (name s ++ e)
             | None => ret tt
             end
           end))%list,
     snd (match err with
          | Some e => log_Fatal (name s ++ e)
          | None =>
            body <- unlinkAll R (unlink s) (Go.Replace svg localHref pageHref (-1)) ;;
            err <- ioutil_WriteFile_proc R (outPath R baseDir s) body ;;
            match err with
            | Some e => log_Fatal (name s ++ e)
            | None => ret tt
            end
          end))).
  { unfold w. rewrite (Stages.specWorker_steps _ _ _ _ _ _ _ _ _ Hs).
    rewrite (runParse_returns _ _ _ _ _ _ _ _ _ Hg), Stages.bind_val.
    rewrite bind_ret_l.
    rewrite (Stages.replaceAllRegexp_returns _ _ _ _ Hg2), Stages.bind_val.
    rewrite Trace.bind_eq, Hrr, Hsvg. reflexivity. }
  split.
  - intros e ->. exact Hw.
  - intros t body e -> Hu He.
    assert (Hw' : w = ((line :: fst (runRR X (name s) g2) ++ t ++
                        [Exit1 (name s ++ e)])%list, None)).
    { rewrite Hw, Hu, Stages.bind_val. unfold ioutil_WriteFile_proc. rewrite He.
      rewrite bind_ret_l. reflexivity. }
    split; [exact Hw'|].
    rewrite Hw'. cbn [fst writes].
    rewrite !Trace.writes_app, Trace.runRR_writes.
    pose proof (Trace.unlinkAll_writes R (unlink s)
                  (Go.Replace svg localHref pageHref (-1))) as Ht.
    rewrite Hu in Ht. cbn [fst] in Ht. now rewrite Ht.
Qed.

Lemma late_failure_messages_witness :
  specWorker Failing.noTag Sample.runtime "out" EmptyString false Sample.grammar
    (Sample.spec "drop" "drop_stmt") [] [] =
  ([Log "parse: drop_stmt, inline: [], descend: false";
    Log "drop: generated railroad diagram";
    Exit1 "drop: no svg element"], None) /\
  specWorker Sample.extract Failing.readOnly "out" EmptyString false Sample.grammar
    (Sample.spec "drop" "drop_stmt") [] [] =
  ([Log "parse: drop_stmt, inline: [], descend: false";
    Log "drop: generated railroad diagram";
    Exit1 "drop: open out/drop.html: read-only file system"], None).
Proof.
  split.
  - exact (proj1 (late_failure_messages Failing.noTag Sample.runtime "out" EmptyString
                    Sample.grammar (Sample.spec "drop" "drop_stmt") [] []
                    "'DROP' 'TABLE' identifier" "'DROP' 'TABLE' identifier"
                    "<p>'DROP' 'TABLE' identifier</p>" EmptyString
                    (Some ": no svg element")
                    eq_refl eq_refl eq_refl eq_refl eq_refl) _ eq_refl).
  - exact (proj1 (proj2 (late_failure_messages Sample.extract Failing.readOnly "out"
                    EmptyString Sample.grammar (Sample.spec "drop" "drop_stmt") [] []
                    "'DROP' 'TABLE' identifier" "'DROP' 'TABLE' identifier"
                    "<svg>'DROP' 'TABLE' identifier</svg>"
                    "<svg>'DROP' 'TABLE' identifier</svg>" None
                    eq_refl eq_refl eq_refl eq_refl eq_refl)
                    [] "<svg>'DROP' 'TABLE' identifier</svg>"
                    ": open out/drop.html: read-only file system"
                    eq_refl eq_refl eq_refl)).
Defined.



(** ** The sub-commands *)

Module Cmd.

Lemma outputs_app (a b : list event) :
  outputs (a ++ b) = (outputs a ++ outputs b)%list.
Proof. apply filter_app. Qed.

Lemma quiet_ret {A} (a : A) : quiet (ret a).
Proof. split; [reflexivity | discriminate]. Qed.

Lemma quiet_fatal {A} (e : string) : quiet (@log_Fatal A e).
Proof. split; [reflexivity|]. intros _. now exists [], e. Qed.

Lemma quiet_bind {A B} (m : Proc A) (k : A -> Proc B) :
  quiet m -> (forall a, quiet (k a)) -> quiet (bind m k).
Proof.
  intros [Hm1 Hm2] Hk. rewrite Trace.bind_eq.
  destruct (snd m) as [a|] eqn:E.
  - destruct (Hk a) as [Hk1 Hk2]. split; cbn [fst snd].
    + now rewrite outputs_app, Hm1, Hk1.
    + intros H. destruct (Hk2 H) as (t & msg & ->).
      exists (fst m ++ t)%list, msg. now rewrite app_assoc.
  - split; [exact Hm1|]. intros _. now apply Hm2.
Qed.

Lemma once_fatal (o e : string) : once o (log_Fatal e).
Proof. right. repeat split. now exists [], e. Qed.

Lemma once_bind {A} (o : string) (m : Proc A) (k : A -> Proc unit) :
  quiet m -> (forall a, once o (k a)) -> once o (bind m k).
Proof.
  intros [Hm1 Hm2] Hk. rewrite Trace.bind_eq.
  destruct (snd m) as [a|] eqn:E.
  - destruct (Hk a) as [[Hr [b Hb]] | (Hr & Hb & t & msg & Ht)]; unfold once;
      cbn [fst snd].
    + left. split; [exact Hr|]. exists b. now rewrite outputs_app, Hm1, Hb.
    + right. split; [exact Hr|]. split.
      * now rewrite outputs_app, Hm1, Hb.
      * exists (fst m ++ t)%list, msg. now rewrite Ht, app_assoc.
  - right. split; [reflexivity|]. split; [exact Hm1 | now apply Hm2].
Qed.

Section Steps.

Variable X : Extract.
Variable O : OS.
Variables inputPath outputPath : string.

Lemma quiet_read : quiet (read O inputPath).
Proof.
  unfold read. destruct (inputPath =? EmptyString); [apply quiet_ret|].
  destruct (os_Open O inputPath); [apply quiet_fatal|].
  destruct (ioutil_ReadAll O inputPath) as [b [e|]];
    [apply quiet_fatal | apply quiet_ret].
Qed.

Lemma quiet_runParse r inl top d n m e : quiet (runParse X r inl top d n m e).
Proof.
  unfold runParse. apply quiet_bind; [split; [reflexivity | discriminate]|].
  intros _. destruct (ParseGrammar X r) as [g [err|]]; [apply quiet_fatal|].
  destruct (Inline X g inl) as [g' [err|]]; [apply quiet_fatal|].
  destruct (ExtractProduction X g' top d n m e). apply quiet_ret.
Qed.

Lemma quiet_runRR nm r : quiet (runRR X nm r).
Proof.
  unfold runRR. destruct (GenerateRR X r) as [html [err|]]; [apply quiet_ret|].
  apply quiet_bind; [split; [reflexivity | discriminate]|].
  intros _. destruct (XHTMLtoHTML X html). apply quiet_ret.
Qed.

Lemma quiet_runBNF addr : quiet (runBNF X addr).
Proof.
  unfold runBNF. apply quiet_bind; [split; [reflexivity | discriminate]|].
  intros _. apply quiet_ret.
Qed.

Lemma once_write b : once outputPath (write O outputPath b).
Proof.
  unfold write, once, destination.
  destruct (outputPath =? EmptyString).
  - destruct (Stdout_Write O b) as [e|];
      [right; repeat split; now exists [], e|].
    left. split; [reflexivity|]. now exists b.
  - destruct (os_Create O outputPath) as [e|];
      [right; repeat split; now exists [], e|].
    destruct (File_Write O outputPath b) as [e|];
      [right; repeat split; now exists [], e|].
    left. split; [reflexivity|]. now exists b.
Qed.

Lemma once_result (res : string * option error) :
  once outputPath
    (let (b, err) := res in
     match err with
     | Some e => log_Fatal e
     | None => write O outputPath b
     end).
Proof. destruct res as [b [e|]]; [apply once_fatal | apply once_write]. Qed.

End Steps.

End Cmd.

(** X18: each of the sub-commands bnf, reduce, rr and body either returns,
    having written one result, to standard output when the out flag is
    empty and to the file it names otherwise, or ends the process with a
    message as its last act, having written nothing. *)
Theorem sub_commands_write_once X O inputPath outputPath addr inl top descend :
  once outputPath (cmdBNF X O outputPath addr) /\
  once outputPath (cmdParse X O inputPath outputPath inl top descend) /\
  once outputPath (cmdRR X O inputPath outputPath) /\
  once outputPath (cmdBody X O inputPath outputPath).
Proof.
  repeat split.
  - unfold cmdBNF. apply Cmd.once_bind; [apply Cmd.quiet_runBNF|].
    intros res. apply Cmd.once_result.
  - unfold cmdParse. apply Cmd.once_bind; [apply Cmd.quiet_read|]. intros r.
    apply Cmd.once_bind; [apply Cmd.quiet_runParse|].
    intros res. apply Cmd.once_result.
  - unfold cmdRR. apply Cmd.once_bind; [apply Cmd.quiet_read|]. intros r.
    apply Cmd.once_bind; [apply Cmd.quiet_runRR|].
    intros res. apply Cmd.once_result.
  - unfold cmdBody. apply Cmd.once_bind; [apply Cmd.quiet_read|]. intros r.
    apply (Cmd.once_result O outputPath (InnerTag X r "body")).
Qed.

(** X19: reduce reads its input before anything else, logs the parse as
    runParse does, always extracts without splitting and with no match or
    exclude patterns, and then either writes the fragment runParse
    returns, or, when extraction fails, ends the process with the bare
    error: the fragment is dropped, and nothing is written. *)
Theorem reduce_writes_or_drops_fragment
    X O inputPath outputPath inl top descend r g g' b err :
  read O inputPath = ret r ->
  ParseGrammar X r = (g, None) ->
  Inline X g inl = (g', None) ->
  ExtractProduction X g' top descend true [] [] = (b, err) ->
  let line := Log ("parse: " ++ top ++ ", inline: " ++ fmtStrings inl ++
                   ", descend: " ++ fmtBool descend) in
  let b' := Go.Replace (Go.Replace b "IDENT" "identifier" (-1)) "_LA" EmptyString (-1) in
  cmdParse X O inputPath outputPath inl top descend =
  match err with
  | Some e => ([line; Exit1 e], None)
  | None => ((line :: fst (write O outputPath b'))%list, snd (write O outputPath b'))
  end.
Proof.
  intros Hr HP HI HE line b'. unfold cmdParse.
  rewrite Hr, bind_ret_l.
  rewrite (runParse_ok _ _ _ _ _ _ _ _ _ _ _ _ HP HI HE), Stages.bind_val.
  now destruct err.
Qed.

Lemma reduce_writes_or_drops_fragment_witness :
  cmdParse Sample.extract (Host.fine Sample.grammar) EmptyString "out.bnf"
    [] "show_stmt" true =
  ([Log "parse: show_stmt, inline: [], descend: true";
    FileWrite "out.bnf" "'SHOW' 'TABLES' | 'SHOW' 'NOT' identifier"], Some tt) /\
  cmdParse Sample.extract (Host.fine Sample.grammar) EmptyString "out.bnf"
    [] "IDENT_list_LA" true =
  ([Log "parse: IDENT_list_LA, inline: [], descend: true";
    Exit1 "couldn't find IDENT_list_LA"], None).
Proof.
  split.
  - exact (reduce_writes_or_drops_fragment Sample.extract (Host.fine Sample.grammar)
             EmptyString "out.bnf" [] "show_stmt" true Sample.grammar
             Sample.grammar Sample.grammar
             "'SHOW' 'TABLES' | 'SHOW' 'NOT_LA' IDENT" None
             eq_refl eq_refl eq_refl eq_refl).
  - exact (reduce_writes_or_drops_fragment Sample.extract (Host.fine Sample.grammar)
             EmptyString "out.bnf" [] "IDENT_list_LA" true Sample.grammar
             Sample.grammar Sample.grammar
             "IDENT_list_LA ::=" (Some "couldn't find IDENT_list_LA")
             eq_refl eq_refl eq_refl eq_refl).
Defined.

(** X20: when an input path is given and the file cannot be opened or
    read, reduce, rr and body end the process with that error and do
    nothing else: no log line, no call of the parser or the renderer, no
    output. *)
Theorem unreadable_input_stops_the_command
    X O inputPath outputPath inl top descend e :
  (inputPath =? EmptyString) = false ->
  os_Open O inputPath = Some e \/
  (os_Open O inputPath = None /\ snd (ioutil_ReadAll O inputPath) = Some e) ->
  cmdParse X O inputPath outputPath inl top descend = ([Exit1 e], None) /\
  cmdRR X O inputPath outputPath = ([Exit1 e], None) /\
  cmdBody X O inputPath outputPath = ([Exit1 e], None).
Proof.
  intros Hi He.
  assert (Hr : read O inputPath = ([Exit1 e], None)).
  { unfold read. rewrite Hi. destruct He as [-> | [-> He]]; [reflexivity|].
    destruct (ioutil_ReadAll O inputPath) as [b err]. cbn [snd] in He.
    now subst err. }
  unfold cmdParse, cmdRR, cmdBody. rewrite Hr. repeat split.
Qed.

Lemma unreadable_input_stops_the_command_witness :
  cmdParse Sample.extract (Host.noFile Sample.grammar) "sql.bnf" EmptyString
    [] "show_stmt" true =
    ([Exit1 "open sql.bnf: no such file or directory"], None) /\
  cmdRR Sample.extract (Host.noFile Sample.grammar) "sql.bnf" EmptyString =
    ([Exit1 "open sql.bnf: no such file or directory"], None) /\
  cmdBody Sample.extract (Host.noFile Sample.grammar) "sql.bnf" EmptyString =
    ([Exit1 "open sql.bnf: no such file or directory"], None).
Proof.
  exact (unreadable_input_stops_the_command Sample.extract (Host.noFile Sample.grammar)
           "sql.bnf" EmptyString [] "show_stmt" true
           "open sql.bnf: no such file or directory" eq_refl (or_introl eq_refl)).
Defined.

(** X21: with a filter that is neither empty nor stmt_block nor the name
    of a statement, the command fetches the grammar and does nothing else:
    its only run is the log line of the fetch. *)
Theorem unknown_filter_does_nothing X R addr baseDir filter printBNF specs bnf tr :
  GenerateBNF X addr = (bnf, None) ->
  skipped filter "stmt_block" = true ->
  forallb (fun s => skipped filter (name s)) specs = true ->
  Run X R addr baseDir filter printBNF specs tr <->
  tr = [Log ("generate BNF: " ++ addr)].
Proof.
  intros HG Hb Hs.
  assert (Hidle : forall ws,
            goroutines X R baseDir filter printBNF bnf specs ws ->
            Forall (fun w => w = []) ws).
  { intros ws (ps & HF & ->). constructor.
    - unfold stmtBlockWorker. fold (skipped filter "stmt_block"). now rewrite Hb.
    - apply Forall_forall. intros w Hw.
      apply in_map_iff in Hw as (p & <- & Hp).
      destruct (Schedule.Forall2_In_r _ _ _ _ HF Hp)
        as (s & Hin & (lits & regs & _ & _ & ->)).
      rewrite forallb_forall in Hs. specialize (Hs s Hin).
      unfold specWorker. fold (skipped filter (name s)). now rewrite Hs. }
  split.
  - intros HR.
    destruct HR as [t0 bnf' e' Hr | t0 bnf' ws tr Hr Hgo Hex];
      rewrite Schedule.runBNF_eq, HG in Hr; inversion Hr; subst; clear Hr.
    specialize (Hidle ws Hgo).
    destruct Hex as [ws H|ws1 e0 w ws2 tr He0 Hex|ws1 e0 w ws2 He0];
      [reflexivity | |]; apply Forall_elt in Hidle; discriminate.
  - intros ->.
    apply (Run_workers X R addr baseDir filter printBNF specs
             [Log ("generate BNF: " ++ addr)] bnf
             (fst (stmtBlockWorker X R baseDir filter printBNF bnf) ::
              map (fun s => fst (specWorker X R baseDir filter printBNF bnf s
                                   (replace s) (regreplace s))) specs) []).
    + now rewrite Schedule.runBNF_eq, HG.
    + eexists. split; [apply Runs.turns_specRun|]. now rewrite map_map.
    + apply exec_done. apply Hidle.
      eexists. split; [apply Runs.turns_specRun|]. now rewrite map_map.
Qed.

Lemma unknown_filter_does_nothing_witness :
  Run Sample.extract Sample.runtime "sql.y" "out" "no_such_stmt" false specs
    [Log "generate BNF: sql.y"].
Proof.
  apply (unknown_filter_does_nothing Sample.extract Sample.runtime "sql.y" "out"
           "no_such_stmt" false specs Sample.grammar); reflexivity.
Defined.
